(** * Blog listing, search and render pipeline

    A shallow embedding of the TypeScript sources
      - [app/components/search.tsx], the client-side title search,
      - the [BlogPosts] listing component,
      - the MDX components [CustomLink], [Code] and [slugify],
    together with the engine built-ins these files call
    ([String.prototype.toLowerCase], [trim], [split], [replace],
    [Array.prototype.filter], [every], [includes], [sort]).

    Character model.  A JavaScript string is a sequence of UTF-16 code
    units.  The development works with Rocq's [string], read as a sequence
    of code units below 256 (the Latin-1 range).  That range is closed under
    [toLowerCase], which acts on it unit by unit, and the regular
    expressions of the sources only use character classes. *)

From stdpp Require Import base option list strings gmap.
From Stdlib Require Import ZArith Lia Ascii String List Permutation Sorted.
From Stdlib Require Import DecimalString.
Import ListNotations.

Local Open Scope nat_scope.

(** ** Characters and character classes *)

Module Char.

Definition code (c : ascii) : nat := nat_of_ascii c.

Definition between (lo hi : nat) (c : ascii) : bool :=
  (lo <=? code c) && (code c <=? hi).

(** [a-z], [A-Z], [0-9]. *)
Definition isLower (c : ascii) : bool := between 97 122 c.
Definition isUpper (c : ascii) : bool := between 65 90 c.
Definition isDigit (c : ascii) : bool := between 48 57 c.

(** The class [\s] of ECMAScript regular expressions, which is also the
    set of code units removed by [String.prototype.trim]: TAB, LF, VT, FF,
    CR, SPACE and NO-BREAK SPACE are its members below 256. *)
Definition isSpace (c : ascii) : bool :=
  between 9 13 c || (code c =? 32) || (code c =? 160).

(** The class [\w]: [A-Za-z0-9_]. *)
Definition isWord (c : ascii) : bool :=
  isLower c || isUpper c || isDigit c || (code c =? 95).

Definition isHyphen (c : ascii) : bool := code c =? 45.
Definition isAmp (c : ascii) : bool := code c =? 38.

(** The class [[^a-z0-9]] of the title splitter. *)
Definition notAlnum (c : ascii) : bool := negb (isLower c || isDigit c).

(** The class [[^\w\-]] of [slugify]. *)
Definition notWordHyphen (c : ascii) : bool := negb (isWord c || isHyphen c).

(** [toLowerCase] on one code unit below 256: the letters A-Z and the
    Latin-1 capitals U+00C0..U+00DE (U+00D7, the multiplication sign,
    apart) move up by 32; every other unit is its own lower case. *)
Definition toLower (c : ascii) : ascii :=
  if isUpper c || (between 192 222 c && negb (code c =? 215))
  then ascii_of_nat (code c + 32)
  else c.

End Char.

(** ** Strings: the built-ins of [String.prototype] used by the sources *)

Module Str.

Fixpoint length (s : string) : nat :=
  match s with
  | EmptyString => 0
  | String _ s' => S (length s')
  end.

Definition isEmpty (s : string) : bool :=
  match s with EmptyString => true | String _ _ => false end.

Fixpoint map (f : ascii -> ascii) (s : string) : string :=
  match s with
  | EmptyString => EmptyString
  | String c s' => String (f c) (map f s')
  end.

Fixpoint all (C : ascii -> bool) (s : string) : bool :=
  match s with
  | EmptyString => true
  | String c s' => C c && all C s'
  end.

Fixpoint drop (n : nat) (s : string) : string :=
  match n, s with
  | S k, String _ s' => drop k s'
  | _, _ => s
  end.

(** Length of the longest prefix of [s] made of characters of class [C]. *)
Fixpoint runLength (C : ascii -> bool) (s : string) : nat :=
  match s with
  | String c s' => if C c then S (runLength C s') else 0
  | EmptyString => 0
  end.

Definition dropRun (C : ascii -> bool) (s : string) : string :=
  drop (runLength C s) s.

(** [s.toLowerCase()]. *)
Definition toLowerCase (s : string) : string := map Char.toLower s.

(** [s.trim()]: leading and trailing white space removed. *)
Definition trimStart (s : string) : string := dropRun Char.isSpace s.

Fixpoint trimEnd (s : string) : string :=
  match s with
  | EmptyString => EmptyString
  | String c s' =>
      let r := trimEnd s' in
      if Char.isSpace c && isEmpty r then EmptyString else String c r
  end.

Definition trim (s : string) : string := trimEnd (trimStart s).

(** [s.startsWith(p)]. *)
Fixpoint startsWith (p s : string) : bool :=
  match p, s with
  | EmptyString, _ => true
  | String a p', String b s' => Ascii.eqb a b && startsWith p' s'
  | String _ _, EmptyString => false
  end.

(** [s.replace(p, r)] with a string pattern: the first occurrence of [p],
    if there is one, is replaced. *)
Fixpoint replaceFirst (p r s : string) : string :=
  if startsWith p s then r +:+ drop (length p) s
  else match s with
       | EmptyString => EmptyString
       | String c s' => String c (replaceFirst p r s')
       end.

End Str.

(** ** The regular expressions of the sources

    Every regular expression literal in the three files is either one
    character class ([/&/]) or a run of at least [n] characters of one
    class ([/\s+/], [/[^a-z0-9]+/], [/[^\w\-]+/] with [n = 1], and
    [/\-\-+/] with [n = 2]).  Matching is greedy and anchored at the
    current index, as the engine's matcher is. *)

Module Regex.

Inductive pattern : Type :=
| One (C : ascii -> bool)
| Run (min : nat) (C : ascii -> bool).

(** Length of the match of [p] at the start of [s], when there is one. *)
Definition matchLength (p : pattern) (s : string) : option nat :=
  match p with
  | One C =>
      match s with
      | String c _ => if C c then Some 1 else None
      | EmptyString => None
      end
  | Run min C =>
      let n := Str.runLength C s in
      if (1 <=? n) && (min <=? n) then Some n else None
  end.

(** [s.replace(/p/g, r)].  The engine tries a match at the current index;
    on success it emits [r] and moves the index past the match, otherwise
    it copies one character.  [skip] counts the characters of the current
    match still to be passed over. *)
Fixpoint replaceFrom (p : pattern) (r : string) (skip : nat) (s : string)
  : string :=
  match s with
  | EmptyString => EmptyString
  | String c s' =>
      match skip with
      | S k => replaceFrom p r k s'
      | O =>
          match matchLength p s with
          | Some n => r +:+ replaceFrom p r (Nat.pred n) s'
          | None => String c (replaceFrom p r 0 s')
          end
      end
  end.

Definition replaceAll (p : pattern) (r s : string) : string :=
  replaceFrom p r 0 s.

(** [s.split(/p/)].  [cur] is the piece being collected, in reverse; a
    match closes it and opens a new one; the end of the string closes the
    last one, so that the result always has at least one element. *)
Fixpoint splitFrom (p : pattern) (skip : nat) (cur : list ascii) (s : string)
  : list string :=
  match s with
  | EmptyString => [string_of_list_ascii (rev cur)]
  | String c s' =>
      match skip with
      | S k => splitFrom p k cur s'
      | O =>
          match matchLength p s with
          | Some n =>
              string_of_list_ascii (rev cur) :: splitFrom p (Nat.pred n) [] s'
          | None => splitFrom p 0 (c :: cur) s'
          end
      end
  end.

Definition split (p : pattern) (s : string) : list string :=
  splitFrom p 0 [] s.

End Regex.

(** ** Posts *)

(** The [BlogPost] type of [search.tsx].  [summary] is optional: both views
    guard it with [||], and a field that is absent from the front matter is
    [undefined] at run time ([None] here). *)
Record Metadata : Type := mkMetadata {
  title : string;
  publishedAt : string;
  summary : option string
}.

Record BlogPost : Type := mkPost {
  metadata : Metadata;
  slug : string
}.

(** A rendered card: the link target and the three texts it shows. *)
Record Card : Type := mkCard {
  card_href : string;
  card_title : string;
  card_summary : string;
  card_date : string
}.

(** [post.metadata.summary || 'No summary available.']: [undefined] and the
    empty string are falsy. *)
Definition summaryText (p : BlogPost) : string :=
  match summary (metadata p) with
  | Some s => if Str.isEmpty s then "No summary available." else s
  | None => "No summary available."
  end.

(** ** Arrays: [Array.prototype.sort]

    The engine's sort is stable and places [x] before [y] only on a negative
    answer of the comparison function.  It is modelled as the stable
    insertion sort: an element moves behind a later one exactly when the
    comparison function, called on the later and the earlier element, is
    negative.  This is not the engine's algorithm (V8 looks for runs and
    inserts by binary search).  When the negative answers form a strict
    weak order, as they do when every date is valid, the result of a stable
    sort does not depend on the algorithm; and an array in which no element
    gets a negative answer against an earlier one is left as it is by the
    engine as by this sort.  With an invalid date in the array the two
    arrangements can differ.  What is proved of [sort] below stays within
    the cases of agreement, or holds of every permutation, or is an
    explicit example on which the engine's run detection, which compares
    neighbours only, leaves the array as this sort does. *)

Module JsArray.

Section Sort.
Context {A : Type}.
Variable compareFn : A -> A -> Z.

Fixpoint insert (x : A) (l : list A) : list A :=
  match l with
  | [] => [x]
  | y :: l' =>
      if (compareFn y x <? 0)%Z then y :: insert x l' else x :: y :: l'
  end.

Definition sort (l : list A) : list A := foldr insert [] l.
End Sort.

End JsArray.

(** ** The search view ([search.tsx]) *)

Module Search.

(** [query.toLowerCase().split(/\s+/).filter((word) => word.length > 0)] *)
Definition queryWords (query : string) : list string :=
  List.filter (fun word => 0 <? Str.length word)
    (Regex.split (Regex.Run 1 Char.isSpace) (Str.toLowerCase query)).

(** [post.metadata.title.toLowerCase().split(/[^a-z0-9]+/)] *)
Definition titleWords (post : BlogPost) : list string :=
  Regex.split (Regex.Run 1 Char.notAlnum)
    (Str.toLowerCase (title (metadata post))).

(** [words.includes(w)] on an array of strings. *)
Definition includes (words : list string) (w : string) : bool :=
  existsb (String.eqb w) words.

(** The callback given to [allPosts.filter]. *)
Definition titleMatches (qws : list string) (post : BlogPost) : bool :=
  forallb (fun queryWord => includes (titleWords post) queryWord) qws.

(** The value the filter effect gives to [setFilteredPosts]. *)
Definition filterPosts (query : string) (allPosts : list BlogPost)
  : list BlogPost :=
  if Str.isEmpty (Str.trim query) then []
  else List.filter (titleMatches (queryWords query)) allPosts.

(** The three [useState] cells of the component. *)
Record State : Type := mkState {
  query : string;
  filteredPosts : list BlogPost;
  allPosts : list BlogPost
}.

Definition initial : State :=
  {| query := ""; filteredPosts := []; allPosts := [] |}.

Definition setQuery (q : string) (st : State) : State :=
  {| query := q; filteredPosts := filteredPosts st; allPosts := allPosts st |}.

Definition setAllPosts (data : list BlogPost) (st : State) : State :=
  {| query := query st; filteredPosts := filteredPosts st; allPosts := data |}.

Definition setFilteredPosts (ps : list BlogPost) (st : State) : State :=
  {| query := query st; filteredPosts := ps; allPosts := allPosts st |}.

(** The second effect, run after every change of [query] or [allPosts]. *)
Definition filterEffect (st : State) : State :=
  setFilteredPosts (filterPosts (query st) (allPosts st)) st.

(** Promises, as far as the first effect uses them: a settled promise is
    fulfilled with a value or rejected with a reason, and [then] runs its
    callback on fulfilment only. *)
Inductive promise (A : Type) : Type :=
| Fulfilled (a : A)
| Rejected (reason : string).
Arguments Fulfilled {A} a.
Arguments Rejected {A} reason.

Definition andThen {A B : Type} (p : promise A) (f : A -> promise B)
  : promise B :=
  match p with
  | Fulfilled a => f a
  | Rejected e => Rejected e
  end.

(** A response, with the outcome of reading its body as JSON. *)
Record Response : Type := mkResponse { json : promise (list BlogPost) }.

(** [fetch(..).then((res) => res.json()).then((data) => setAllPosts(data))]:
    the state update the chain performs, or the rejection it is left with.
    The chain has no [catch]. *)
Definition fetchChain (fetched : promise Response)
  : promise (State -> State) :=
  andThen (andThen fetched json) (fun data => Fulfilled (setAllPosts data)).

Inductive event : Type :=
| Typed (q : string)                      (* onChange of the input *)
| FetchSettled (fetched : promise Response).

Definition step (st : State) (ev : event) : State :=
  match ev with
  | Typed q => filterEffect (setQuery q st)
  | FetchSettled fetched =>
      match fetchChain fetched with
      | Fulfilled update => filterEffect (update st)
      | Rejected _ => st
      end
  end.

(** The state after mounting (both effects have run once) and a sequence of
    events. *)
Definition run (evs : list event) : State :=
  fold_left step evs (filterEffect initial).

Section View.
(** [formatDate] of this file with its default second argument: the date
    string as the engine's [Date] and [toLocaleString] print it. *)
Variable formatDate : string -> string.

Definition card (post : BlogPost) : Card :=
  {| card_href := "/blog/" +:+ slug post;
     card_title := title (metadata post);
     card_summary := summaryText post;
     card_date := "Published on: " +:+ formatDate (publishedAt (metadata post)) |}.

(** What the component returns: the input box and one card per filtered
    post. *)
Record View : Type := mkView { inputValue : string; cards : list Card }.

Definition render (st : State) : View :=
  {| inputValue := query st; cards := List.map card (filteredPosts st) |}.
End View.

End Search.

(** ** The listing view ([BlogPosts]) *)

Module Listing.

Section Engine.
(** [new Date(s).valueOf()]: the time value of the date string, [None]
    for an invalid date (NaN). *)
Variable Date_valueOf : string -> option Z.
(** [formatDate] of [app/blog/utils]. *)
Variable formatDate : string -> string.

(** [new Date(a) > new Date(b)]: false as soon as one side is NaN. *)
Definition dateAfter (a b : string) : bool :=
  match Date_valueOf a, Date_valueOf b with
  | Some x, Some y => (y <? x)%Z
  | _, _ => false
  end.

(** The comparison function given to [sort]. *)
Definition compareFn (a b : BlogPost) : Z :=
  if dateAfter (publishedAt (metadata a)) (publishedAt (metadata b))
  then (-1)%Z else 1%Z.

(** The display order. *)
Definition sorted (allBlogs : list BlogPost) : list BlogPost :=
  JsArray.sort compareFn allBlogs.

Definition card (post : BlogPost) : Card :=
  {| card_href := "/blog/" +:+ slug post;
     card_title := title (metadata post);
     card_summary := summaryText post;
     card_date := "Published on: " +:+ formatDate (publishedAt (metadata post)) |}.

Definition BlogPosts (allBlogs : list BlogPost) : list Card :=
  List.map card (sorted allBlogs).
End Engine.

End Listing.

(** ** The MDX components *)

Module Mdx.

(** [slugify]. [toString] is the identity on a string. *)
Definition slugify (str : string) : string :=
  Regex.replaceAll (Regex.Run 2 Char.isHyphen) "-"
    (Regex.replaceAll (Regex.Run 1 Char.notWordHyphen) ""
       (Regex.replaceAll (Regex.One Char.isAmp) "-and-"
          (Regex.replaceAll (Regex.Run 1 Char.isSpace) "-"
             (Str.trim (Str.toLowerCase str))))).

(** Props and attributes are objects with string values; the link text
    travels with the other props under the key [children]. *)
Inductive element : Type :=
| NextLink (attrs : gmap string string)   (* <Link ...> of next/link *)
| Anchor (attrs : gmap string string).    (* <a ...> *)

(** Attributes written before a spread are overridden by the spread:
    [<a k="v" {...props} />] has the attributes [props ∪ {k := v}]
    (the union of maps prefers its left operand). *)
Definition externalDefaults : gmap string string :=
  {[ "target" := "_blank"; "rel" := "noopener noreferrer" ]}.

(** [CustomLink]; [None] is the TypeError of [href.startsWith] on a
    missing [href]. *)
Definition CustomLink (props : gmap string string) : option element :=
  match props !! "href" with
  | None => None
  | Some href =>
      if Str.startsWith "/" href then
        Some (NextLink (props ∪ {[ "href" := href ]}))
      else if Str.startsWith "#" href then
        Some (Anchor props)
      else
        Some (Anchor (props ∪ externalDefaults))
  end.

(** The arguments of one call of [hljs.highlight]: the code (the
    [children] prop, [None] when it is missing) and the two options. *)
Record HighlightCall : Type := mkCall {
  hl_code : option string;
  hl_language : string;
  hl_ignoreIllegals : bool
}.

(** [className ? className.replace('language-', '') : 'python']; the empty
    string is falsy. *)
Definition codeLanguage (className : option string) : string :=
  match className with
  | Some c =>
      if Str.isEmpty c then "python" else Str.replaceFirst "language-" "" c
  | None => "python"
  end.

Definition highlightCall (children className : option string)
  : HighlightCall :=
  {| hl_code := children;
     hl_language := codeLanguage className;
     hl_ignoreIllegals := true |}.

(** What a call gives: a value, or an exception. *)
Inductive outcome (A : Type) : Type :=
| Returned (a : A)
| Threw (message : string).
Arguments Returned {A} a.
Arguments Threw {A} message.

(** [className={className}]: no attribute when [className] is undefined. *)
Definition classAttr (className : option string) : gmap string string :=
  match className with
  | Some c => {[ "className" := c ]}
  | None => ∅
  end.

Section Highlighter.
(** [hljs.highlight(code, options).value].  The library throws for a
    language that is not registered; it is not part of these sources. *)
Variable hljs_highlight : HighlightCall -> outcome string.

(** [Code({ children, className, ...props })]: the attributes of the
    [<code>] element, or the exception of the highlighter, which is not
    caught.  The content set through [dangerouslySetInnerHTML] is kept
    under that key; the rest of the props is spread after the two
    attributes. *)
Definition Code (allProps : gmap string string)
  : outcome (gmap string string) :=
  let children := allProps !! "children" in
  let className := allProps !! "className" in
  let props := delete "children" (delete "className" allProps) in
  match hljs_highlight (highlightCall children className) with
  | Returned highlightedCode =>
      Returned
        (props ∪ (classAttr className
                  ∪ {[ "dangerouslySetInnerHTML" := highlightedCode ]}))
  | Threw message => Threw message
  end.
End Highlighter.

End Mdx.

(** ** The slug of a heading, in the words of the specification *)

Module SlugSpec.

Definition headIs (C : ascii -> bool) (s : string) : bool :=
  match s with
  | String c _ => C c
  | EmptyString => false
  end.

(** Each maximal run of characters of class [C] becomes one copy of [r]: a
    character of the class is dropped when another one follows it, and
    gives [r] when it is the last of its run. *)
Fixpoint replaceRuns (C : ascii -> bool) (r : string) (s : string) : string :=
  match s with
  | EmptyString => EmptyString
  | String c s' =>
      if C c then
        if headIs C s' then replaceRuns C r s' else r +:+ replaceRuns C r s'
      else String c (replaceRuns C r s')
  end.

(** Each character of class [C] becomes one copy of [r]. *)
Fixpoint replaceEach (C : ascii -> bool) (r : string) (s : string) : string :=
  match s with
  | EmptyString => EmptyString
  | String c s' =>
      if C c then r +:+ replaceEach C r s' else String c (replaceEach C r s')
  end.

(** The characters of class [keep], in order. *)
Fixpoint keepOnly (keep : ascii -> bool) (s : string) : string :=
  match s with
  | EmptyString => EmptyString
  | String c s' =>
      if keep c then String c (keepOnly keep s') else keepOnly keep s'
  end.

(** A hyphen followed by a hyphen is dropped: of a run of two or more only
    the last one stays, and a single hyphen stays as it is. *)
Fixpoint collapseHyphens (s : string) : string :=
  match s with
  | EmptyString => EmptyString
  | String c s' =>
      if Char.isHyphen c && headIs Char.isHyphen s' then collapseHyphens s'
      else String c (collapseHyphens s')
  end.

Definition hyphenateSpaces : string -> string := replaceRuns Char.isSpace "-".
Definition spellAmpersands : string -> string := replaceEach Char.isAmp "-and-".
Definition keepWordAndHyphen : string -> string :=
  keepOnly (fun c => Char.isWord c || Char.isHyphen c).

Definition slug (str : string) : string :=
  collapseHyphens
    (keepWordAndHyphen
       (spellAmpersands
          (hyphenateSpaces (Str.trim (Str.toLowerCase str))))).

End SlugSpec.

(** ** Arrays: [Array.prototype.map] with the index, and [join] *)

Fixpoint mapFrom {A B : Type} (f : A -> nat -> B) (i : nat) (l : list A)
  : list B :=
  match l with
  | [] => []
  | x :: l' => f x i :: mapFrom f (S i) l'
  end.

(** [l.map((x, index) => f(x, index))]. *)
Definition mapIndexed {A B : Type} (f : A -> nat -> B) (l : list A) : list B :=
  mapFrom f 0 l.

(** [l.join(sep)] on an array of strings. *)
Fixpoint join (sep : string) (l : list string) : string :=
  match l with
  | [] => EmptyString
  | a :: rest =>
      match rest with
      | [] => a
      | _ :: _ => a +:+ sep +:+ join sep rest
      end
  end.

(** ** The other MDX components: [Table], [RoundedImage], headings and the
    table of components *)

Module Components.

Inductive cellTag : Type := Th | Td.

(** A [<th>] or [<td>] with its [key] and its content. *)
Record Cell : Type := mkCell {
  cell_tag : cellTag;
  cell_key : nat;
  cell_content : string
}.

(** A [<tr>] of the body with its [key]. *)
Record Row : Type := mkRow { row_key : nat; row_cells : list Cell }.

Record TableData : Type := mkTableData {
  headers : list string;
  rows : list (list string)
}.

(** The [<table>]: the cells of the one row of [<thead>], and the rows of
    [<tbody>].  The class names, which are constants, are left out. *)
Record TableElement : Type := mkTable { thead : list Cell; tbody : list Row }.

(** [Table]. *)
Definition Table (data : TableData) : TableElement :=
  let headers :=
    mapIndexed (fun header index => mkCell Th index header) (headers data) in
  let rows :=
    mapIndexed
      (fun row index =>
         mkRow index
           (mapIndexed (fun cell cellIndex => mkCell Td cellIndex cell) row))
      (rows data) in
  {| thead := headers; tbody := rows |}.

(** [RoundedImage]: the props given to [Image].  [alt] and [className] are
    written before the spread of the props; a missing [alt] stays missing. *)
Definition RoundedImage (props : gmap string string) : gmap string string :=
  props ∪ (match props !! "alt" with
           | Some alt => {[ "alt" := alt ]}
           | None => ∅
           end ∪ {[ "className" := "rounded-lg" ]}).

(** The element a heading component returns: the tag, the [id], the anchor
    put before the children, and the children. *)
Record HeadingElement : Type := mkHeading {
  h_tag : string;
  h_id : string;
  anchor_href : string;
  anchor_key : string;
  anchor_className : string;
  h_children : string
}.

(** [createHeading(level)] applied to [{ children }]. *)
Definition createHeading (level : nat) (children : string) : HeadingElement :=
  let slug := Mdx.slugify children in
  {| h_tag := "h" +:+ NilZero.string_of_uint (Nat.to_uint level);
     h_id := slug;
     anchor_href := "#" +:+ slug;
     anchor_key := "link-" +:+ slug;
     anchor_className := "anchor";
     h_children := children |}.

(** The components a key of the table can stand for; [Supplied] is a
    component of the caller. *)
Inductive component : Type :=
| Heading (level : nat)
| Image
| Link
| CodeBlock
| TableOf
| Supplied (name : string).

(** [components]. *)
Definition components : gmap string component :=
  {[ "h1" := Heading 1; "h2" := Heading 2; "h3" := Heading 3;
     "h4" := Heading 4; "h5" := Heading 5; "h6" := Heading 6;
     "Image" := Image; "a" := Link; "code" := CodeBlock;
     "Table" := TableOf ]}.

(** The [components] prop [CustomMDX] gives to [MDXRemote]:
    [{ ...components, ...(props.components || {}) }]. *)
Definition CustomMDX (supplied : option (gmap string component))
  : gmap string component :=
  default ∅ supplied ∪ components.

End Components.

(** ** The root layout: [cx] *)

Module Layout.

(** [Boolean(v)] on a class: [None] stands for [undefined], [null] and
    [false]; the empty string is falsy too. *)
Definition truthy (v : option string) : bool :=
  match v with
  | Some s => negb (Str.isEmpty s)
  | None => false
  end.

(** [cx = (...classes) => classes.filter(Boolean).join(' ')]. *)
Definition cx (classes : list (option string)) : string :=
  join " " (List.map (default EmptyString) (List.filter truthy classes)).

End Layout.

(** ** [formatDate] of [search.tsx] *)

Module DateFormat.

(** [getFullYear()], [getMonth()] and [getDate()] of a valid date. *)
Record DateFields : Type := mkFields { fullYear : Z; month : Z; date : Z }.

(** [s.includes(p)]. *)
Fixpoint includes (p s : string) : bool :=
  Str.startsWith p s ||
  match s with
  | EmptyString => false
  | String _ s' => includes p s'
  end.

(** [x > 0] on a number that may be NaN ([None]). *)
Definition positive (x : option Z) : bool :=
  match x with
  | Some z => (0 <? z)%Z
  | None => false
  end.

(** A number in a template literal: an integer in decimal, or NaN. *)
Definition number (x : option Z) : string :=
  match x with
  | Some z => NilZero.string_of_int (Z.to_int z)
  | None => "NaN"
  end.

Section Engine.
(** [new Date()]. *)
Variable currentDate : DateFields.
(** [new Date(s)]: the calendar fields in local time, [None] for an invalid
    date, whose fields are NaN. *)
Variable Date_fields : string -> option DateFields.
(** [new Date(s).toLocaleString('en-us', { month: 'long', day: 'numeric',
    year: 'numeric' })]. *)
Variable toLocaleString : string -> string.

(** The date string after the first [if]. *)
Definition withTime (date : string) : string :=
  if negb (includes "T" date) then date +:+ "T00:00:00" else date.

Definition ago (field : DateFields -> Z) (targetDate : option DateFields)
  : option Z :=
  option_map (fun t => (field currentDate - field t)%Z) targetDate.

(** [formattedDate]. *)
Definition formattedDate (targetDate : option DateFields) : string :=
  let yearsAgo := ago fullYear targetDate in
  let monthsAgo := ago month targetDate in
  let daysAgo := ago date targetDate in
  if positive yearsAgo then number yearsAgo +:+ "y ago"
  else if positive monthsAgo then number monthsAgo +:+ "mo ago"
  else if positive daysAgo then number daysAgo +:+ "d ago"
  else "Today".

(** [formatDate(date, includeRelative)]. *)
Definition formatDate (date : string) (includeRelative : bool) : string :=
  let date := withTime date in
  let targetDate := Date_fields date in
  let fullDate := toLocaleString date in
  if negb includeRelative then fullDate
  else fullDate +:+ " (" +:+ formattedDate targetDate +:+ ")".
End Engine.

End DateFormat.

(** ** Vocabulary of the properties *)

(** An event brings no posts: it is a keystroke, or a fetch whose chain of
    [then] callbacks ends rejected. *)
Definition bringsNoPosts (ev : Search.event) : Prop :=
  match ev with
  | Search.Typed _ => True
  | Search.FetchSettled fetched =>
      exists reason, Search.fetchChain fetched = Search.Rejected reason
  end.

(** A key that the comparison function agrees with on the elements at hand:
    a negative answer means a strictly larger key. *)
Definition agrees {A : Type} (compareFn : A -> A -> Z) (key : A -> Z)
  (l : list A) : Prop :=
  forall x y, In x l -> In y l ->
    (compareFn x y <? 0)%Z = (key y <? key x)%Z.

(** Keys never increase along the list. *)
Definition descending {A : Type} (key : A -> Z) : list A -> Prop :=
  StronglySorted (fun a b => (key b <= key a)%Z).

(** [a]'s date is valid, [b]'s date is valid, and [a]'s is the later one. *)
Definition strictlyAfter (Date_valueOf : string -> option Z) (a b : BlogPost) : Prop :=
  exists ta tb,
    Date_valueOf (publishedAt (metadata a)) = Some ta /\
    Date_valueOf (publishedAt (metadata b)) = Some tb /\
    (tb < ta)%Z.

Definition hasDate (Date_valueOf : string -> option Z) (p : BlogPost) : Prop :=
  Date_valueOf (publishedAt (metadata p)) <> None.

Definition timeOf (Date_valueOf : string -> option Z) (p : BlogPost) : Z :=
  match Date_valueOf (publishedAt (metadata p)) with
  | Some t => t
  | None => 0%Z
  end.

(** Both occur in [l], and every occurrence of [a] is before every
    occurrence of [b]. *)
Definition appearsBefore {A : Type} (a b : A) (l : list A) : Prop :=
  In a l /\ In b l /\
  forall i j, nth_error l i = Some a -> nth_error l j = Some b -> i < j.

(** Time values of the date strings used in the examples: date-only ISO
    strings are UTC midnight, in milliseconds since the epoch; the empty
    string is not a date. *)
Definition exampleDates (s : string) : option Z :=
  if String.eqb s "2025-01-01" then Some 1735689600000%Z
  else if String.eqb s "2025-03-01" then Some 1740787200000%Z
  else None.

Definition older : BlogPost :=
  mkPost (mkMetadata "First" "2025-01-01" (Some "The first post.")) "first".
Definition undated : BlogPost :=
  mkPost (mkMetadata "Draft" "" None) "draft".
Definition newer : BlogPost :=
  mkPost (mkMetadata "Second" "2025-03-01" (Some "")) "second".

Definition whiteHouse : BlogPost :=
  mkPost (mkMetadata "White House Rules" "2025-01-02" None) "white-house-rules".

(** The characters a slug is made of: [a-z], [0-9], '_' and '-'. *)
Definition slugChar (c : ascii) : bool :=
  Char.isLower c || Char.isDigit c || (Char.code c =? 95) || Char.isHyphen c.

(** No hyphen of [s] is followed by a hyphen. *)
Fixpoint noDoubleHyphen (s : string) : bool :=
  match s with
  | EmptyString => true
  | String c s' =>
      negb (Char.isHyphen c && SlugSpec.headIs Char.isHyphen s')
      && noDoubleHyphen s'
  end.

(** The query typed last, and the posts fetched last, in a sequence of
    events: what the state of the search view is expected to hold. *)
Definition lastTyped (evs : list Search.event) : string :=
  fold_left (fun acc ev =>
               match ev with
               | Search.Typed q => q
               | Search.FetchSettled _ => acc
               end) evs ""%string.

Definition lastFetched (evs : list Search.event) : list BlogPost :=
  fold_left (fun acc ev =>
               match ev with
               | Search.Typed _ => acc
               | Search.FetchSettled fetched =>
                   match Search.andThen fetched Search.json with
                   | Search.Fulfilled data => data
                   | Search.Rejected _ => acc
                   end
               end) evs [].

(** No post of [l] is strictly after a post that stands before it. *)
Definition newestFirst (Date_valueOf : string -> option Z) : list BlogPost -> Prop :=
  StronglySorted (fun a b => ~ strictlyAfter Date_valueOf b a).

(** The data a rendered table shows, read back from its cells. *)
Definition readTable (t : Components.TableElement) : Components.TableData :=
  {| Components.headers := List.map Components.cell_content (Components.thead t);
     Components.rows :=
       List.map (fun r => List.map Components.cell_content (Components.row_cells r))
         (Components.tbody t) |}.

(** The attributes of a rendered link. *)
Definition attrsOf (el : Mdx.element) : gmap string string :=
  match el with
  | Mdx.NextLink attrs => attrs
  | Mdx.Anchor attrs => attrs
  end.

(** [p] occurs in [s] at index [i]. *)
Definition occursAt (p s : string) (i : nat) : bool :=
  Str.startsWith p (Str.drop i s).

(** [s] with its prefix [p] removed, and [s] itself when [p] is not a
    prefix of it. *)
Definition withoutPrefix (p s : string) : string :=
  if Str.startsWith p s then Str.drop (Str.length p) s else s.

(** * Properties *)

(** ** Strings *)

Lemma all_dropRun (C : ascii -> bool) (s : string) :
  Str.all C (Str.dropRun C s) = Str.all C s.
Proof.
  unfold Str.dropRun.
  induction s as [|c s IH]; simpl; [reflexivity|].
  destruct (C c) eqn:E; simpl; [exact IH | now rewrite E].
Qed.

Lemma isEmpty_trimEnd (s : string) :
  Str.isEmpty (Str.trimEnd s) = Str.all Char.isSpace s.
Proof.
  induction s as [|c s IH]; simpl; [reflexivity|].
  rewrite IH.
  destruct (Char.isSpace c), (Str.all Char.isSpace s); reflexivity.
Qed.

(** [query.trim() === ''] holds exactly for the strings made of white space
    only. *)
Lemma isEmpty_trim (s : string) :
  Str.isEmpty (Str.trim s) = Str.all Char.isSpace s.
Proof.
  unfold Str.trim, Str.trimStart.
  now rewrite isEmpty_trimEnd, all_dropRun.
Qed.

(** ** Splitting *)

Lemma all_string_of_list (P : ascii -> bool) (l : list ascii) :
  Str.all P (string_of_list_ascii l) = forallb P l.
Proof. induction l as [|c l IH]; simpl; [reflexivity | now rewrite IH]. Qed.

Lemma forallb_rev {A : Type} (P : A -> bool) (l : list A) :
  forallb P (rev l) = forallb P l.
Proof.
  induction l as [|x l IH]; simpl; [reflexivity|].
  rewrite forallb_app, IH. simpl. rewrite andb_true_r. apply andb_comm.
Qed.

Lemma matchLength_Run_None (C : ascii -> bool) (c : ascii) (s : string) :
  Regex.matchLength (Regex.Run 1 C) (String c s) = None -> C c = false.
Proof. simpl. destruct (C c); [discriminate | reflexivity]. Qed.

(** No piece of [s.split(/C+/)] has a character of the class [C]. *)
Lemma splitFrom_pieces (C : ascii -> bool) (s : string) :
  forall (skip : nat) (cur : list ascii),
    forallb (fun c => negb (C c)) cur = true ->
    Forall (fun w => Str.all (fun c => negb (C c)) w = true)
      (Regex.splitFrom (Regex.Run 1 C) skip cur s).
Proof.
  induction s as [|c s IH]; intros skip cur Hcur.
  - constructor; [|constructor].
    now rewrite all_string_of_list, forallb_rev.
  - destruct skip as [|k]; [|apply IH, Hcur].
    cbn [Regex.splitFrom].
    destruct (Regex.matchLength (Regex.Run 1 C) (String c s)) as [n|] eqn:Hm.
    + constructor; [|now apply IH].
      now rewrite all_string_of_list, forallb_rev.
    + apply IH. simpl. now rewrite (matchLength_Run_None C c s Hm).
Qed.

Lemma titleWords_alnum (post : BlogPost) (w : string) :
  In w (Search.titleWords post) ->
  Str.all (fun c => Char.isLower c || Char.isDigit c) w = true.
Proof.
  intros Hin. unfold Search.titleWords, Regex.split in Hin.
  pose proof (splitFrom_pieces Char.notAlnum
                (Str.toLowerCase (title (metadata post))) 0 [] eq_refl) as Hall.
  rewrite Forall_forall in Hall. specialize (Hall w Hin).
  clear Hin. induction w as [|c w IH]; [reflexivity|].
  simpl in Hall |- *. apply andb_true_iff in Hall. destruct Hall as [Hc Hw].
  unfold Char.notAlnum in Hc. rewrite negb_involutive in Hc.
  now rewrite Hc, IH.
Qed.

(** ** The search filter *)

Lemma includes_In (words : list string) (w : string) :
  Search.includes words w = true <-> In w words.
Proof.
  unfold Search.includes. rewrite existsb_exists. split.
  - intros (x & Hx & Heq). apply String.eqb_eq in Heq. now subst.
  - intros Hin. exists w. split; [exact Hin | apply String.eqb_refl].
Qed.

Lemma titleMatches_spec (qws : list string) (post : BlogPost) :
  Search.titleMatches qws post = true <->
  forall w, In w qws -> In w (Search.titleWords post).
Proof.
  unfold Search.titleMatches. rewrite forallb_forall.
  split; intros H w Hw; apply includes_In, H, Hw.
Qed.

Lemma filterPosts_nonblank (query : string) (allPosts : list BlogPost) :
  Str.all Char.isSpace query = false ->
  Search.filterPosts query allPosts =
  List.filter (Search.titleMatches (Search.queryWords query)) allPosts.
Proof.
  intros Hq. unfold Search.filterPosts. now rewrite isEmpty_trim, Hq.
Qed.

Lemma filterPosts_blank (query : string) (allPosts : list BlogPost) :
  Str.all Char.isSpace query = true ->
  Search.filterPosts query allPosts = [].
Proof.
  intros Hq. unfold Search.filterPosts. now rewrite isEmpty_trim, Hq.
Qed.

Lemma filter_sublist_of {A : Type} (f : A -> bool) (l : list A) :
  sublist (List.filter f l) l.
Proof.
  induction l as [|x l IH]; simpl.
  - constructor.
  - destruct (f x); now constructor.
Qed.

Lemma filterPosts_In (query : string) (allPosts : list BlogPost) (post : BlogPost) :
  In post (Search.filterPosts query allPosts) ->
  In post allPosts /\
  forall w, In w (Search.queryWords query) -> In w (Search.titleWords post).
Proof.
  unfold Search.filterPosts.
  destruct (Str.isEmpty (Str.trim query)); [intros []|].
  rewrite filter_In, titleMatches_spec. tauto.
Qed.

(** C1, as amended.  For a query with at least one character that is not
    white space, a post is among the filtered posts if and only if it is one
    of the posts and every query word (query lowercased, split on white
    space, empty words dropped) is an element of the title's words (title
    lowercased, split on runs of characters outside a-z and 0-9).  For any
    query, a query word that is not itself a title word keeps the post out,
    whatever title word it is a part of.  The query "white" finds a post
    titled "White House Rules"; the query "whit" finds no such post. *)
Theorem search_whole_word_match :
  (forall (allPosts : list BlogPost) (query : string) (post : BlogPost),
      Str.all Char.isSpace query = false ->
      (In post (Search.filterPosts query allPosts) <->
       In post allPosts /\
       forall w, In w (Search.queryWords query) -> In w (Search.titleWords post)))
  /\ (forall (allPosts : list BlogPost) (query : string) (post : BlogPost) (w : string),
        In w (Search.queryWords query) ->
        ~ In w (Search.titleWords post) ->
        ~ In post (Search.filterPosts query allPosts))
  /\ (forall (allPosts : list BlogPost) (post : BlogPost),
        title (metadata post) = "White House Rules"%string ->
        In post allPosts ->
        In post (Search.filterPosts "white" allPosts))
  /\ (forall (allPosts : list BlogPost) (post : BlogPost),
        title (metadata post) = "White House Rules"%string ->
        ~ In post (Search.filterPosts "whit" allPosts)).
Proof.
  split; [|split; [|split]].
  - intros allPosts query post Hq.
    rewrite (filterPosts_nonblank _ _ Hq), filter_In, titleMatches_spec.
    reflexivity.
  - intros allPosts query post w Hw Hnot Hin.
    apply filterPosts_In in Hin. destruct Hin as [_ Hall]. auto.
  - intros allPosts post Ht Hin.
    rewrite filterPosts_nonblank by reflexivity.
    apply filter_In. split; [exact Hin|].
    unfold Search.titleMatches, Search.titleWords. rewrite Ht. reflexivity.
  - intros allPosts post Ht Hin.
    apply filterPosts_In in Hin. destruct Hin as [_ Hall].
    specialize (Hall "whit"%string (or_introl eq_refl)).
    unfold Search.titleWords in Hall. rewrite Ht in Hall.
    vm_compute in Hall. intuition discriminate.
Qed.

Lemma search_whole_word_match_witness :
  Str.all Char.isSpace "house  WHITE" = false /\
  (In whiteHouse (Search.filterPosts "house  WHITE" [whiteHouse]) <->
   In whiteHouse [whiteHouse] /\
   forall w, In w (Search.queryWords "house  WHITE") ->
             In w (Search.titleWords whiteHouse)).
Proof.
  split; [reflexivity|].
  apply (proj1 search_whole_word_match [whiteHouse] "house  WHITE"%string whiteHouse).
  reflexivity.
Defined.

(** C1 as stated fails on the empty query: no query word is missing from the
    title, yet the guard of the effect leaves the result empty. *)
Lemma search_empty_query_counterexample :
  (In whiteHouse [whiteHouse] /\
   forall w, In w (Search.queryWords "") -> In w (Search.titleWords whiteHouse))
  /\ ~ In whiteHouse (Search.filterPosts "" [whiteHouse]).
Proof.
  split; [split|].
  - left; reflexivity.
  - intros w [].
  - intros [].
Qed.

(** C4.  A query that is empty or made of white space only gives the empty
    result, whatever the posts are; typing such a query leaves no filtered
    post in the state. *)
Theorem blank_query_gives_no_posts
  (allPosts : list BlogPost) (query : string) :
  Str.all Char.isSpace query = true ->
  Search.filterPosts query allPosts = [] /\
  forall st : Search.State,
    Search.filteredPosts (Search.step st (Search.Typed query)) = [].
Proof.
  intros Hq. split.
  - now apply filterPosts_blank.
  - intros st. simpl. now apply filterPosts_blank.
Qed.

Lemma blank_query_gives_no_posts_witness :
  Search.filterPosts "  " [whiteHouse] = [] /\
  forall st : Search.State,
    Search.filteredPosts (Search.step st (Search.Typed "  ")) = [].
Proof.
  apply (blank_query_gives_no_posts [whiteHouse] "  "%string). reflexivity.
Defined.

(** C9, as amended.  Whatever the query and [allPosts] are, the recomputed
    [filteredPosts] is an order-preserving subsequence of [allPosts], and the
    recomputation changes neither [allPosts] nor the query.  When the query
    has a character that is not white space, [filteredPosts] holds exactly
    the posts of [allPosts] that satisfy the match predicate; when it has
    none, [filteredPosts] is empty. *)
Theorem filterEffect_subsequence (st : Search.State) :
  sublist (Search.filteredPosts (Search.filterEffect st)) (Search.allPosts st)
  /\ Search.allPosts (Search.filterEffect st) = Search.allPosts st
  /\ Search.query (Search.filterEffect st) = Search.query st
  /\ (Str.all Char.isSpace (Search.query st) = false ->
      Search.filteredPosts (Search.filterEffect st) =
        List.filter (Search.titleMatches (Search.queryWords (Search.query st)))
                    (Search.allPosts st)
      /\ forall post,
          In post (Search.filteredPosts (Search.filterEffect st)) <->
          In post (Search.allPosts st) /\
          Search.titleMatches (Search.queryWords (Search.query st)) post = true)
  /\ (Str.all Char.isSpace (Search.query st) = true ->
      Search.filteredPosts (Search.filterEffect st) = []).
Proof.
  destruct st as [q fp ap]; simpl.
  split; [|split; [reflexivity|split; [reflexivity|split]]].
  - unfold Search.filterPosts.
    destruct (Str.isEmpty (Str.trim q)).
    + apply sublist_nil_l.
    + apply filter_sublist_of.
  - intros Hq. rewrite (filterPosts_nonblank _ _ Hq).
    split; [reflexivity|]. intros post. apply filter_In.
  - intros Hq. now apply filterPosts_blank.
Qed.

Lemma filterEffect_subsequence_witness :
  let st := Search.mkState "rules" [] [whiteHouse; whiteHouse] in
  Search.filteredPosts (Search.filterEffect st) = [whiteHouse; whiteHouse].
Proof.
  intros st.
  destruct (filterEffect_subsequence st) as (_ & _ & _ & Hnb & _).
  destruct (Hnb eq_refl) as [Heq _].
  rewrite Heq. reflexivity.
Defined.

(** C9 as stated fails on the empty query: the post satisfies the match
    predicate (there is no query word to miss) and is not in
    [filteredPosts]. *)
Lemma filterEffect_empty_query_counterexample :
  let st := Search.mkState "" [] [whiteHouse] in
  In whiteHouse (Search.allPosts st)
  /\ Search.titleMatches (Search.queryWords (Search.query st)) whiteHouse = true
  /\ ~ In whiteHouse (Search.filteredPosts (Search.filterEffect st)).
Proof.
  simpl. split; [now left|]. split; [reflexivity|]. intros [].
Qed.

(** ** The fetch effect *)

Lemma filterPosts_nil (query : string) : Search.filterPosts query [] = [].
Proof. unfold Search.filterPosts. now destruct (Str.isEmpty (Str.trim query)). Qed.

Lemma step_keeps_empty (st : Search.State) (ev : Search.event) :
  bringsNoPosts ev ->
  Search.allPosts st = [] -> Search.filteredPosts st = [] ->
  Search.allPosts (Search.step st ev) = [] /\
  Search.filteredPosts (Search.step st ev) = [].
Proof.
  intros Hev Ha Hf. destruct ev as [q | fetched]; simpl in *.
  - rewrite Ha. split; [reflexivity | apply filterPosts_nil].
  - destruct Hev as [reason ->]. now split.
Qed.

Lemma fold_step_keeps_empty (evs : list Search.event) (st : Search.State) :
  Forall bringsNoPosts evs ->
  Search.allPosts st = [] -> Search.filteredPosts st = [] ->
  Search.allPosts (fold_left Search.step evs st) = [] /\
  Search.filteredPosts (fold_left Search.step evs st) = [].
Proof.
  intros Hevs. revert st.
  induction Hevs as [|ev evs Hev _ IH]; intros st Ha Hf; simpl; [now split|].
  destruct (step_keeps_empty st ev Hev Ha Hf) as [Ha' Hf'].
  now apply IH.
Qed.

Lemma typed_bring_no_posts (qs : list string) :
  Forall bringsNoPosts (List.map Search.Typed qs).
Proof. induction qs; simpl; constructor; simpl; auto. Qed.

(** C8.  When the fetch is rejected, the [then] callbacks do not run and the
    chain is left rejected with the same reason: there is no handler.  The
    state is the one it would be with the fetch still pending: whatever is
    typed before and after, [allPosts] and [filteredPosts] are empty and the
    view shows the input box and no card. *)
Theorem fetch_failure_is_silent
  (formatDate : string -> string) (reason : string) (before after : list string) :
  let failed := Search.FetchSettled (Search.Rejected reason) in
  let evs := List.map Search.Typed before ++ failed :: List.map Search.Typed after in
  Search.fetchChain (Search.Rejected reason) = Search.Rejected reason
  /\ (forall st, Search.step st failed = st)
  /\ Search.run evs = Search.run (List.map Search.Typed (before ++ after))
  /\ Search.allPosts (Search.run evs) = []
  /\ Search.filteredPosts (Search.run evs) = []
  /\ Search.render formatDate (Search.run evs) =
       Search.mkView (Search.query (Search.run evs)) [].
Proof.
  intros failed evs.
  assert (Hrun : Search.run evs = Search.run (List.map Search.Typed (before ++ after))).
  { unfold Search.run, evs. rewrite List.map_app, !fold_left_app. reflexivity. }
  assert (Hempty : Search.allPosts (Search.run evs) = [] /\
                   Search.filteredPosts (Search.run evs) = []).
  { rewrite Hrun. unfold Search.run.
    apply fold_step_keeps_empty; [apply typed_bring_no_posts | reflexivity ..]. }
  destruct Hempty as [Ha Hf].
  repeat split; try assumption; try reflexivity.
  unfold Search.render. now rewrite Hf.
Qed.

(** ** Sorting *)

Section SortFacts.
Context {A : Type}.
Variable compareFn : A -> A -> Z.

Lemma insert_Permutation (x : A) (l : list A) :
  Permutation (JsArray.insert compareFn x l) (x :: l).
Proof.
  induction l as [|y l IH]; simpl; [reflexivity|].
  destruct (compareFn y x <? 0)%Z; [|reflexivity].
  rewrite IH. apply perm_swap.
Qed.

Lemma sort_Permutation (l : list A) :
  Permutation (JsArray.sort compareFn l) l.
Proof.
  induction l as [|x l IH]; simpl; [reflexivity|].
  rewrite insert_Permutation. now constructor.
Qed.

Lemma sort_In (x : A) (l : list A) :
  In x (JsArray.sort compareFn l) <-> In x l.
Proof.
  split; apply Permutation_in;
    [apply sort_Permutation | symmetry; apply sort_Permutation].
Qed.

(** A key for the elements, as in [agrees] and [descending]. *)
Variable key : A -> Z.

Lemma insert_descending (x : A) (l : list A) :
  agrees compareFn key (x :: l) -> descending key l ->
  descending key (JsArray.insert compareFn x l).
Proof.
  unfold descending. intros Hag Hs.
  induction Hs as [|y l Hs IH Hall]; simpl.
  - repeat constructor.
  - rewrite (Hag y x) by (simpl; auto).
    destruct (Z.ltb_spec (key x) (key y)) as [Hlt | Hge].
    + constructor.
      * apply IH. intros u v Hu Hv. apply Hag; simpl in *; tauto.
      * apply Forall_forall. intros z Hz.
        apply (Permutation_in _ (insert_Permutation x l)) in Hz.
        destruct Hz as [<- | Hz]; [lia|].
        rewrite Forall_forall in Hall. now apply Hall.
    + constructor; [now constructor|].
      constructor; [exact Hge|].
      rewrite Forall_forall in Hall |- *.
      intros z Hz. specialize (Hall z Hz). lia.
Qed.

Lemma sort_descending (l : list A) :
  agrees compareFn key l -> descending key (JsArray.sort compareFn l).
Proof.
  induction l as [|x l IH]; intros Hag; simpl.
  - constructor.
  - assert (Hl : agrees compareFn key l).
    { intros u v Hu Hv. apply Hag; simpl; auto. }
    apply insert_descending; [|now apply IH].
    intros u v Hu Hv. apply Hag.
    + destruct Hu as [<- | Hu]; [now left | right; exact (proj1 (sort_In u l) Hu)].
    + destruct Hv as [<- | Hv]; [now left | right; exact (proj1 (sort_In v l) Hv)].
Qed.

Lemma descending_nth (l : list A) (i j : nat) (a b : A) :
  descending key l -> i < j ->
  nth_error l i = Some a -> nth_error l j = Some b ->
  (key b <= key a)%Z.
Proof.
  unfold descending. intros Hs. revert i j.
  induction Hs as [|x l Hs IH Hall]; intros i j Hij Hi Hj.
  - destruct i; discriminate.
  - destruct j as [|j]; [lia|]. simpl in Hj.
    destruct i as [|i]; simpl in Hi.
    + injection Hi as <-. rewrite Forall_forall in Hall.
      apply Hall. eapply nth_error_In, Hj.
    + apply (IH i j); [lia | assumption..].
Qed.

(** In a descending list an element with a strictly larger key comes
    first. *)
Lemma descending_order (l : list A) (i j : nat) (a b : A) :
  descending key l ->
  nth_error l i = Some a -> nth_error l j = Some b ->
  (key b < key a)%Z -> i < j.
Proof.
  intros Hs Hi Hj Hlt.
  destruct (Nat.lt_trichotomy i j) as [H | [-> | H]]; [exact H | |].
  - rewrite Hi in Hj. injection Hj as ->. lia.
  - pose proof (descending_nth l j i b a Hs H Hj Hi). lia.
Qed.
End SortFacts.

(** ** The listing *)

Lemma dateAfter_true (dv : string -> option Z) (a b : BlogPost) :
  Listing.dateAfter dv (publishedAt (metadata a)) (publishedAt (metadata b)) = true
  <-> strictlyAfter dv a b.
Proof.
  unfold Listing.dateAfter, strictlyAfter. split.
  - destruct (dv (publishedAt (metadata a))) as [ta|]; [|discriminate].
    destruct (dv (publishedAt (metadata b))) as [tb|]; [|discriminate].
    intros H. exists ta, tb. apply Z.ltb_lt in H. auto.
  - intros (ta & tb & -> & -> & H). now apply Z.ltb_lt.
Qed.

(** C5.  The comparison function answers a negative number (-1: [a] goes
    first) exactly when [a]'s date is strictly after [b]'s.  In every other
    case, equal and earlier dates alike, it answers the same positive number
    (1: [b] goes first).  It never answers 0; on equal dates it puts [b]
    first whichever way round the two posts are given. *)
Theorem compareFn_only_checks_after
  (Date_valueOf : string -> option Z) (a b : BlogPost) :
  (Listing.compareFn Date_valueOf a b = (-1)%Z <-> strictlyAfter Date_valueOf a b)
  /\ ((Listing.compareFn Date_valueOf a b < 0)%Z <-> strictlyAfter Date_valueOf a b)
  /\ (~ strictlyAfter Date_valueOf a b -> Listing.compareFn Date_valueOf a b = 1%Z)
  /\ Listing.compareFn Date_valueOf a b <> 0%Z
  /\ (timeOf Date_valueOf a = timeOf Date_valueOf b ->
      Listing.compareFn Date_valueOf a b = 1%Z /\
      Listing.compareFn Date_valueOf b a = 1%Z).
Proof.
  pose proof (dateAfter_true Date_valueOf a b) as Hab.
  pose proof (dateAfter_true Date_valueOf b a) as Hba.
  unfold Listing.compareFn.
  destruct (Listing.dateAfter Date_valueOf (publishedAt (metadata a))
              (publishedAt (metadata b))) eqn:Eab.
  - assert (Ha : strictlyAfter Date_valueOf a b) by now apply Hab.
    repeat split; try easy.
    + destruct Ha as (ta & tb & Hta & Htb & Hlt).
      unfold timeOf in H. rewrite Hta, Htb in H. lia.
    + destruct Ha as (ta & tb & Hta & Htb & Hlt).
      unfold timeOf in H. rewrite Hta, Htb in H. lia.
  - assert (Ha : ~ strictlyAfter Date_valueOf a b).
    { intros H. apply Hab in H. discriminate. }
    repeat split; try easy.
    destruct (Listing.dateAfter Date_valueOf (publishedAt (metadata b))
                (publishedAt (metadata a))) eqn:Eba; [|reflexivity].
    destruct (proj1 Hba eq_refl) as (tb & ta & Htb & Hta & Hlt).
    unfold timeOf in H. rewrite Hta, Htb in H. lia.
Qed.

Lemma compareFn_agrees (dv : string -> option Z) (l : list BlogPost) :
  (forall p, In p l -> hasDate dv p) ->
  agrees (Listing.compareFn dv) (timeOf dv) l.
Proof.
  intros Hd x y Hx Hy.
  pose proof (Hd x Hx) as Dx. pose proof (Hd y Hy) as Dy.
  unfold hasDate in Dx, Dy.
  unfold Listing.compareFn, Listing.dateAfter, timeOf.
  destruct (dv (publishedAt (metadata x))) as [tx|]; [|contradiction].
  destruct (dv (publishedAt (metadata y))) as [ty|]; [|contradiction].
  destruct (Z.ltb_spec ty tx); reflexivity.
Qed.

(** The order of display does not depend on how the engine sorts: in any
    arrangement of the collection whose dates never increase, the post with
    the strictly later date comes first. *)
Lemma descending_arrangement_newer_first
  (dv : string -> option Z) (allBlogs arranged : list BlogPost) (A B : BlogPost) :
  Permutation arranged allBlogs ->
  descending (timeOf dv) arranged ->
  In A allBlogs -> In B allBlogs ->
  strictlyAfter dv A B ->
  appearsBefore A B arranged.
Proof.
  intros Hperm Hdesc HA HB (ta & tb & Hta & Htb & Hlt).
  split; [|split].
  - apply (Permutation_in _ (Permutation_sym Hperm)), HA.
  - apply (Permutation_in _ (Permutation_sym Hperm)), HB.
  - intros i j Hi Hj.
    eapply (descending_order (timeOf dv)); [exact Hdesc | exact Hi | exact Hj |].
    unfold timeOf. now rewrite Hta, Htb.
Qed.

(** C2, as amended.  When every post of the collection has a valid
    [publishedAt] date, any post [A] of the collection whose date is strictly
    after that of a post [B] of the collection appears before [B] in the
    display order; the cards are shown in that order. *)
Theorem listing_newer_first
  (Date_valueOf : string -> option Z) (formatDate : string -> string)
  (allBlogs : list BlogPost) (A B : BlogPost) :
  (forall p, In p allBlogs -> hasDate Date_valueOf p) ->
  In A allBlogs -> In B allBlogs ->
  strictlyAfter Date_valueOf A B ->
  appearsBefore A B (Listing.sorted Date_valueOf allBlogs)
  /\ forall i,
      nth_error (Listing.BlogPosts Date_valueOf formatDate allBlogs) i =
      option_map (Listing.card formatDate)
        (nth_error (Listing.sorted Date_valueOf allBlogs) i).
Proof.
  intros Hdates HA HB Hafter. split; [|intros i; apply nth_error_map].
  apply (descending_arrangement_newer_first Date_valueOf allBlogs);
    try assumption.
  - apply sort_Permutation.
  - apply sort_descending, compareFn_agrees, Hdates.
Qed.

Lemma listing_newer_first_witness :
  appearsBefore newer older (Listing.sorted exampleDates [older; newer; older]).
Proof.
  apply (listing_newer_first exampleDates (fun s => s) [older; newer; older] newer older).
  - intros p [<- | [<- | [<- | []]]]; discriminate.
  - right; left; reflexivity.
  - left; reflexivity.
  - exists 1740787200000%Z, 1735689600000%Z. repeat split.
Defined.

(** C2 as stated fails when a post with an invalid date stands between the
    two: every comparison with it answers 1, the three posts are left as
    they are, and the newer post is shown after the older one. *)
Lemma listing_invalid_date_counterexample :
  let allBlogs := [older; undated; newer] in
  In newer allBlogs /\ In older allBlogs
  /\ strictlyAfter exampleDates newer older
  /\ Listing.sorted exampleDates allBlogs = [older; undated; newer]
  /\ ~ appearsBefore newer older (Listing.sorted exampleDates allBlogs).
Proof.
  simpl. split; [tauto|]. split; [tauto|]. split; [|split].
  - exists 1740787200000%Z, 1735689600000%Z. repeat split.
  - reflexivity.
  - intros (_ & _ & H).
    specialize (H 2 0 eq_refl eq_refl). lia.
Qed.

(** ** The summary placeholder *)

(** C7.  For a post whose summary is missing or empty, the card of the
    listing view and the card of the search view both show the text
    'No summary available.'.  Building a card is a total function of the
    post, so nothing is thrown: the listing has that card for every such
    post of the collection, and the search view has it for every such post
    among the filtered posts. *)
Theorem missing_summary_placeholder
  (Date_valueOf : string -> option Z)
  (formatDateListing formatDateSearch : string -> string) (post : BlogPost) :
  summary (metadata post) = None \/ summary (metadata post) = Some ""%string ->
  card_summary (Listing.card formatDateListing post) = "No summary available."%string
  /\ card_summary (Search.card formatDateSearch post) = "No summary available."%string
  /\ (forall allBlogs, In post allBlogs ->
        In (Listing.card formatDateListing post)
           (Listing.BlogPosts Date_valueOf formatDateListing allBlogs))
  /\ (forall st, In post (Search.filteredPosts st) ->
        In (Search.card formatDateSearch post)
           (Search.cards (Search.render formatDateSearch st))).
Proof.
  intros Hs.
  assert (Htext : summaryText post = "No summary available."%string).
  { unfold summaryText. destruct Hs as [-> | ->]; reflexivity. }
  repeat split.
  - exact Htext.
  - exact Htext.
  - intros allBlogs Hin. unfold Listing.BlogPosts, Listing.sorted.
    apply in_map. now apply sort_In.
  - intros st Hin. unfold Search.render; simpl. now apply in_map.
Qed.

Lemma missing_summary_placeholder_witness :
  card_summary (Listing.card (fun s => s) undated) = "No summary available."%string
  /\ card_summary (Search.card (fun s => s) newer) = "No summary available."%string.
Proof.
  split.
  - apply (missing_summary_placeholder exampleDates (fun s => s) (fun s => s) undated).
    left; reflexivity.
  - apply (missing_summary_placeholder exampleDates (fun s => s) (fun s => s) newer).
    right; reflexivity.
Defined.

(** ** Global replacement, character by character *)

Lemma length_dropRun (C : ascii -> bool) (s : string) :
  Str.length (Str.dropRun C s) <= Str.length s.
Proof.
  unfold Str.dropRun.
  induction s as [|c s IH]; simpl; [lia|].
  destruct (C c); simpl; lia.
Qed.

Lemma headIs_runLength (C : ascii -> bool) (s : string) :
  SlugSpec.headIs C s = (1 <=? Str.runLength C s).
Proof. destruct s as [|c s]; simpl; [reflexivity|]. now destruct (C c). Qed.

Lemma dropRun_cons (C : ascii -> bool) (c : ascii) (s : string) :
  C c = true -> Str.dropRun C (String c s) = Str.dropRun C s.
Proof. intros Hc. unfold Str.dropRun. simpl. now rewrite Hc. Qed.

Lemma dropRun_head_false (C : ascii -> bool) (s : string) :
  SlugSpec.headIs C s = false -> Str.dropRun C s = s.
Proof.
  unfold Str.dropRun. destruct s as [|c s]; simpl; [reflexivity|].
  now intros ->.
Qed.

(** Once a match is found the rest of the run is passed over. *)
Lemma replaceFrom_skips_run (p : Regex.pattern) (C : ascii -> bool) (r s : string) :
  Regex.replaceFrom p r (Str.runLength C s) s =
  Regex.replaceFrom p r 0 (Str.dropRun C s).
Proof.
  induction s as [|c s IH]; [reflexivity|].
  destruct (C c) eqn:Hc.
  - rewrite (dropRun_cons C c s Hc). simpl Str.runLength. rewrite Hc.
    simpl. exact IH.
  - unfold Str.dropRun. simpl Str.runLength. rewrite Hc. reflexivity.
Qed.

Lemma replaceAll_Run_cons (m : nat) (C : ascii -> bool) (r : string)
  (c : ascii) (s : string) :
  Regex.replaceAll (Regex.Run m C) r (String c s) =
  if C c && (m <=? S (Str.runLength C s))
  then r +:+ Regex.replaceAll (Regex.Run m C) r (Str.dropRun C s)
  else String c (Regex.replaceAll (Regex.Run m C) r s).
Proof.
  unfold Regex.replaceAll. simpl.
  destruct (C c) eqn:Hc; simpl; [|reflexivity].
  destruct (m <=? S (Str.runLength C s)); [|reflexivity].
  simpl. now rewrite replaceFrom_skips_run.
Qed.

(** In the words of the specification: the first character of a run gives
    [r], and the rest of the run gives nothing. *)
Lemma replaceRuns_cons (C : ascii -> bool) (r : string) (c : ascii) (s : string) :
  C c = true ->
  SlugSpec.replaceRuns C r (String c s) =
  r +:+ SlugSpec.replaceRuns C r (Str.dropRun C s).
Proof.
  intros Hc. revert c Hc.
  induction s as [|d s IH]; intros c Hc.
  - simpl. now rewrite Hc.
  - change (SlugSpec.replaceRuns C r (String c (String d s)))
      with (if C c then
              if C d then SlugSpec.replaceRuns C r (String d s)
              else r +:+ SlugSpec.replaceRuns C r (String d s)
            else String c (SlugSpec.replaceRuns C r (String d s))).
    rewrite Hc. destruct (C d) eqn:Hd.
    + rewrite (IH d Hd). now rewrite (dropRun_cons C d s Hd).
    + rewrite dropRun_head_false; [reflexivity | exact Hd].
Qed.

(** [s.replace(/C+/g, r)] replaces each maximal run; so does
    [s.replace(/CC+/g, r)] when [r] is the one character of the class. *)
Lemma replaceAll_Run_replaceRuns (m : nat) (C : ascii -> bool) (r s : string) :
  m <= 1 \/ (m = 2 /\ forall c, C c = true -> r = String c EmptyString) ->
  Regex.replaceAll (Regex.Run m C) r s = SlugSpec.replaceRuns C r s.
Proof.
  intros Hm.
  remember (Str.length s) as n eqn:Hn.
  assert (Hle : Str.length s <= n) by lia. clear Hn.
  revert s Hle. induction n as [|n IH]; intros s Hle.
  - destruct s; [reflexivity | simpl in Hle; lia].
  - destruct s as [|c s]; [reflexivity|]. simpl in Hle.
    rewrite replaceAll_Run_cons.
    destruct (C c) eqn:Hc; cbn [andb].
    + rewrite (replaceRuns_cons C r c s Hc).
      destruct (m <=? S (Str.runLength C s)) eqn:Hrun.
      * rewrite IH; [reflexivity|].
        pose proof (length_dropRun C s). lia.
      * apply Nat.leb_gt in Hrun.
        destruct Hm as [Hm | [-> Hr]]; [lia|].
        assert (Hhead : SlugSpec.headIs C s = false).
        { rewrite headIs_runLength. apply Nat.leb_gt. lia. }
        rewrite (dropRun_head_false C s Hhead).
        rewrite IH by lia. rewrite (Hr c Hc). reflexivity.
    + simpl. rewrite Hc. rewrite IH by lia. reflexivity.
Qed.

Lemma replaceAll_One_replaceEach (C : ascii -> bool) (r s : string) :
  Regex.replaceAll (Regex.One C) r s = SlugSpec.replaceEach C r s.
Proof.
  unfold Regex.replaceAll.
  induction s as [|c s IH]; simpl; [reflexivity|].
  destruct (C c); simpl; now rewrite IH.
Qed.

Lemma replaceRuns_empty_keepOnly (C : ascii -> bool) (s : string) :
  SlugSpec.replaceRuns C EmptyString s = SlugSpec.keepOnly (fun c => negb (C c)) s.
Proof.
  induction s as [|c s IH]; simpl; [reflexivity|].
  destruct (C c); simpl; rewrite IH; [|reflexivity].
  now destruct (SlugSpec.headIs C s).
Qed.

Lemma keepOnly_ext (f g : ascii -> bool) (s : string) :
  (forall c, f c = g c) -> SlugSpec.keepOnly f s = SlugSpec.keepOnly g s.
Proof.
  intros Hfg. induction s as [|c s IH]; simpl; [reflexivity|].
  now rewrite Hfg, IH.
Qed.

Lemma isHyphen_eq (c : ascii) :
  Char.isHyphen c = true -> c = "-"%char.
Proof.
  unfold Char.isHyphen, Char.code. intros H. apply Nat.eqb_eq in H.
  rewrite <- (ascii_nat_embedding c), H. reflexivity.
Qed.

Lemma replaceRuns_hyphen_collapse (s : string) :
  SlugSpec.replaceRuns Char.isHyphen "-" s = SlugSpec.collapseHyphens s.
Proof.
  induction s as [|c s IH]; simpl; [reflexivity|].
  destruct (Char.isHyphen c) eqn:Hc; simpl; rewrite IH; [|reflexivity].
  destruct (SlugSpec.headIs Char.isHyphen s); [reflexivity|].
  now rewrite (isHyphen_eq c Hc).
Qed.

(** C3.  [slugify] computes, for every string, the lowercased and trimmed
    input in which each run of white space has become one hyphen, then each
    '&' has become '-and-', then every character that is neither a word
    character nor a hyphen has been deleted, then each run of two or more
    hyphens has become one.  The heading
    "Understanding PyTorch: Graphs & Autograd" gets the slug
    "understanding-pytorch-graphs-and-autograd". *)
Theorem slugify_meets_spec :
  (forall str : string, Mdx.slugify str = SlugSpec.slug str)
  /\ Mdx.slugify "Understanding PyTorch: Graphs & Autograd" =
     "understanding-pytorch-graphs-and-autograd"%string.
Proof.
  split; [|reflexivity].
  intros str. unfold Mdx.slugify, SlugSpec.slug.
  unfold SlugSpec.hyphenateSpaces, SlugSpec.spellAmpersands,
    SlugSpec.keepWordAndHyphen.
  rewrite (replaceAll_Run_replaceRuns 1 Char.isSpace) by (left; lia).
  rewrite replaceAll_One_replaceEach.
  rewrite (replaceAll_Run_replaceRuns 1 Char.notWordHyphen) by (left; lia).
  rewrite replaceRuns_empty_keepOnly.
  rewrite (replaceAll_Run_replaceRuns 2 Char.isHyphen)
    by (right; split; [reflexivity | intros c Hc; now rewrite (isHyphen_eq c Hc)]).
  rewrite replaceRuns_hyphen_collapse.
  f_equal. apply keepOnly_ext.
  intros c. unfold Char.notWordHyphen. apply negb_involutive.
Qed.

(** ** Links *)

Lemma union_own_href (props : gmap string string) (href : string) :
  props !! "href"%string = Some href ->
  props ∪ {[ "href"%string := href ]} = props.
Proof.
  intros Hhref. apply map_eq. intros k.
  destruct (props !! k) as [v|] eqn:Hk.
  - now apply lookup_union_Some_l.
  - rewrite lookup_union_r by exact Hk.
    apply lookup_singleton_None. intros <-. congruence.
Qed.

(** C6, as amended.  For a link with an [href]: when the [href] begins with
    '/', the link is a [Link] of the client router carrying the props; when
    it begins with '#', it is a plain anchor carrying exactly the props;
    in every other case it is an anchor that carries the props, and that
    has [target="_blank"] when the props give no [target] and
    [rel="noopener noreferrer"] when the props give no [rel]. *)
Theorem customLink_rendering (props : gmap string string) (href : string) :
  props !! "href"%string = Some href ->
  (Str.startsWith "/" href = true ->
     Mdx.CustomLink props = Some (Mdx.NextLink props))
  /\ (Str.startsWith "/" href = false -> Str.startsWith "#" href = true ->
        Mdx.CustomLink props = Some (Mdx.Anchor props))
  /\ (Str.startsWith "/" href = false -> Str.startsWith "#" href = false ->
        exists attrs : gmap string string,
          Mdx.CustomLink props = Some (Mdx.Anchor attrs)
          /\ (forall k v, props !! k = Some v -> attrs !! k = Some v)
          /\ (props !! "target"%string = None ->
                attrs !! "target"%string = Some "_blank"%string)
          /\ (props !! "rel"%string = None ->
                attrs !! "rel"%string = Some "noopener noreferrer"%string)
          /\ (forall k, k <> "target"%string -> k <> "rel"%string ->
                attrs !! k = props !! k)).
Proof.
  intros Hhref. unfold Mdx.CustomLink. rewrite Hhref.
  split; [|split].
  - intros ->. now rewrite union_own_href.
  - intros -> ->. reflexivity.
  - intros -> ->. exists (props ∪ Mdx.externalDefaults).
    split; [reflexivity|]. split; [|split; [|split]].
    + intros k v Hk. now apply lookup_union_Some_l.
    + intros Hnone. now rewrite lookup_union_r.
    + intros Hnone. now rewrite lookup_union_r.
    + intros k Ht Hr.
      destruct (props !! k) as [v|] eqn:Hk.
      * now apply lookup_union_Some_l.
      * rewrite lookup_union_r by exact Hk.
        unfold Mdx.externalDefaults.
        rewrite lookup_insert_ne by congruence.
        now rewrite lookup_singleton_ne.
Qed.

Lemma customLink_rendering_witness :
  exists attrs : gmap string string,
    Mdx.CustomLink {[ "href"%string := "https://example.org"%string ]} =
      Some (Mdx.Anchor attrs)
    /\ attrs !! "target"%string = Some "_blank"%string
    /\ attrs !! "rel"%string = Some "noopener noreferrer"%string.
Proof.
  assert (Hhref : ({[ "href"%string := "https://example.org"%string ]}
                     : gmap string string) !! "href"%string =
                  Some "https://example.org"%string) by reflexivity.
  destruct (customLink_rendering _ _ Hhref) as (_ & _ & Hext).
  destruct (Hext eq_refl eq_refl) as (attrs & Heq & _ & Ht & Hr & _).
  exists attrs. split; [exact Heq|].
  split; [apply Ht | apply Hr]; reflexivity.
Defined.

(** C6 as stated fails for a link whose props give a [target] of their own:
    the spread comes after the two defaults and overrides them. *)
Lemma customLink_override_counterexample :
  let props : gmap string string :=
    {[ "href"%string := "https://example.org"%string;
       "target"%string := "_self"%string ]} in
  props !! "href"%string = Some "https://example.org"%string
  /\ Str.startsWith "/" "https://example.org" = false
  /\ Str.startsWith "#" "https://example.org" = false
  /\ exists attrs : gmap string string,
       Mdx.CustomLink props = Some (Mdx.Anchor attrs)
       /\ attrs !! "target"%string = Some "_self"%string
       /\ attrs !! "target"%string <> Some "_blank"%string.
Proof.
  simpl. split; [reflexivity|]. split; [reflexivity|]. split; [reflexivity|].
  eexists. split; [reflexivity|].
  split; [reflexivity | discriminate].
Qed.

(** ** Code blocks *)

Lemma startsWith_app (p s : string) : Str.startsWith p (p +:+ s) = true.
Proof.
  induction p as [|a p IH]; simpl; [reflexivity|].
  now rewrite Ascii.eqb_refl.
Qed.

Lemma drop_length_app (p s : string) : Str.drop (Str.length p) (p +:+ s) = s.
Proof. induction p as [|a p IH]; simpl; [now destruct s | exact IH]. Qed.

(** Replacing the first occurrence removes the pattern when the string
    begins with it. *)
Lemma replaceFirst_prefix (p r s : string) :
  Str.replaceFirst p r (p +:+ s) = r +:+ s.
Proof.
  destruct (p +:+ s) as [|c t] eqn:E; simpl.
  - rewrite <- E, startsWith_app.
    rewrite <- (drop_length_app p s) at 2. now rewrite E.
  - rewrite <- E, startsWith_app. now rewrite drop_length_app.
Qed.

Lemma drop_empty (n : nat) : Str.drop n EmptyString = EmptyString.
Proof. now destruct n. Qed.

Lemma startsWith_split (p s : string) :
  Str.startsWith p s = true -> s = p +:+ Str.drop (Str.length p) s.
Proof.
  revert s. induction p as [|a p IH]; intros s H.
  - now destruct s.
  - destruct s as [|b s]; [discriminate H|].
    simpl in H. apply andb_true_iff in H. destruct H as [Hab Hp].
    apply Ascii.eqb_eq in Hab. subst b.
    change (String a s = String a (p +:+ Str.drop (Str.length p) s)).
    now rewrite <- (IH s Hp).
Qed.

Lemma replaceFirst_skip (p r : string) (c : ascii) (s : string) :
  Str.startsWith p (String c s) = false ->
  Str.replaceFirst p r (String c s) = String c (Str.replaceFirst p r s).
Proof. intros H. simpl Str.replaceFirst. now rewrite H. Qed.

(** Only the first occurrence is replaced. *)
Lemma replaceFirst_first (p r pre post : string) :
  (forall i, i < Str.length pre -> occursAt p (pre +:+ p +:+ post) i = false) ->
  Str.replaceFirst p r (pre +:+ p +:+ post) = pre +:+ r +:+ post.
Proof.
  induction pre as [|a pre IH]; intros Hfirst.
  - apply (replaceFirst_prefix p r post).
  - change (String a pre +:+ p +:+ post) with (String a (pre +:+ p +:+ post)).
    rewrite replaceFirst_skip by (apply (Hfirst 0); simpl; lia).
    change (String a pre +:+ r +:+ post) with (String a (pre +:+ r +:+ post)).
    f_equal. apply IH. intros i Hi.
    apply (Hfirst (S i)). simpl. lia.
Qed.

(** A string in which the pattern does not occur is left as it is. *)
Lemma replaceFirst_absent (p r s : string) :
  (forall i, occursAt p s i = false) -> Str.replaceFirst p r s = s.
Proof.
  induction s as [|c s IH]; intros Habs.
  - pose proof (Habs 0) as H0. unfold occursAt in H0. simpl in H0.
    simpl. now rewrite H0.
  - rewrite replaceFirst_skip by apply (Habs 0).
    f_equal. apply IH. intros i. apply (Habs (S i)).
Qed.

(** The pattern does not occur, or it has a first occurrence. *)
Lemma first_occurrence (p s : string) :
  (forall i, occursAt p s i = false) \/
  exists pre post,
    s = pre +:+ p +:+ post /\
    forall i, i < Str.length pre -> occursAt p s i = false.
Proof.
  induction s as [|c s IH].
  - destruct (Str.startsWith p EmptyString) eqn:H0.
    + right. exists EmptyString, (Str.drop (Str.length p) EmptyString).
      split; [apply (startsWith_split p _ H0) | intros i Hi; simpl in Hi; lia].
    + left. intros i. unfold occursAt. now rewrite drop_empty.
  - destruct (Str.startsWith p (String c s)) eqn:H0.
    + right. exists EmptyString, (Str.drop (Str.length p) (String c s)).
      split; [apply (startsWith_split p _ H0) | intros i Hi; simpl in Hi; lia].
    + destruct IH as [Habs | (pre & post & Heq & Hfirst)].
      * left. intros [|i]; [exact H0 | apply (Habs i)].
      * right. exists (String c pre), post. split.
        -- change (String c s = String c (pre +:+ p +:+ post)). now rewrite <- Heq.
        -- intros [|i] Hi; [exact H0|]. apply (Hfirst i). simpl in Hi. lia.
Qed.

Lemma Code_attributes (html : string) (allProps : gmap string string) :
  let attrs :=
    delete "children"%string (delete "className"%string allProps)
    ∪ (Mdx.classAttr (allProps !! "className"%string)
       ∪ {[ "dangerouslySetInnerHTML"%string := html ]}) in
  attrs !! "className"%string = allProps !! "className"%string
  /\ attrs !! "children"%string = None
  /\ (allProps !! "dangerouslySetInnerHTML"%string = None ->
      attrs !! "dangerouslySetInnerHTML"%string = Some html)
  /\ (forall k, k <> "className"%string -> k <> "children"%string ->
                k <> "dangerouslySetInnerHTML"%string ->
      attrs !! k = allProps !! k).
Proof.
  intros attrs. unfold attrs, Mdx.classAttr.
  split; [|split; [|split]].
  - rewrite lookup_union_r
      by (rewrite lookup_delete_ne by discriminate; apply lookup_delete_eq).
    destruct (allProps !! "className"%string) as [c|].
    + apply lookup_union_Some_l, lookup_singleton_eq.
    + rewrite lookup_union_r by apply lookup_empty.
      now apply lookup_singleton_ne.
  - rewrite lookup_union_r by apply lookup_delete_eq.
    rewrite lookup_union_r.
    + now apply lookup_singleton_ne.
    + destruct (allProps !! "className"%string);
        [now apply lookup_singleton_ne | apply lookup_empty].
  - intros Hnone.
    rewrite lookup_union_r by (now rewrite !lookup_delete_ne by discriminate).
    rewrite lookup_union_r; [apply lookup_singleton_eq|].
    destruct (allProps !! "className"%string);
      [now apply lookup_singleton_ne | apply lookup_empty].
  - intros k Hc Hch Hd.
    assert (Hrest : delete "children"%string
                      (delete "className"%string allProps) !! k = allProps !! k)
      by (now rewrite !lookup_delete_ne by congruence).
    destruct (allProps !! k) as [v|] eqn:Hk.
    + now apply lookup_union_Some_l.
    + rewrite lookup_union_r by exact Hrest.
      rewrite lookup_union_r; [now apply lookup_singleton_ne|].
      destruct (allProps !! "className"%string);
        [now apply lookup_singleton_ne | apply lookup_empty].
Qed.

(** C10, as amended.  The language given to the highlighter is the class
    name with its first occurrence of 'language-' removed when there is a
    class name that is not empty: what follows the prefix when the class
    name begins with 'language-', and the class name itself when
    'language-' does not occur in it.  It is 'python' when there is no
    class name or an empty one.  The highlighter is called on the children
    with [ignoreIllegals] set, so that illegal syntax is ignored rather
    than raised.  What the highlighter returns is the content of the
    element, which keeps the class name and the other props; what the
    highlighter throws is thrown by the handler. *)
Theorem code_language_tag :
  (forall (children : option string) (lang : string),
      Mdx.hl_language
        (Mdx.highlightCall children (Some ("language-" +:+ lang))) = lang)
  /\ (forall (children : option string) (pre post : string),
        (forall i, i < Str.length pre ->
           occursAt "language-" (pre +:+ "language-" +:+ post) i = false) ->
        Mdx.hl_language
          (Mdx.highlightCall children (Some (pre +:+ "language-" +:+ post))) =
        pre +:+ post)
  /\ (forall (children : option string) (c : string),
        c <> EmptyString ->
        (forall i, occursAt "language-" c i = false) ->
        Mdx.hl_language (Mdx.highlightCall children (Some c)) = c)
  /\ (forall c : string,
        (forall i, occursAt "language-" c i = false) \/
        exists pre post,
          c = pre +:+ "language-" +:+ post /\
          forall i, i < Str.length pre -> occursAt "language-" c i = false)
  /\ (forall children : option string,
        Mdx.hl_language (Mdx.highlightCall children None) = "python"%string
        /\ Mdx.hl_language (Mdx.highlightCall children (Some EmptyString)) =
             "python"%string)
  /\ (forall children className : option string,
        Mdx.hl_ignoreIllegals (Mdx.highlightCall children className) = true
        /\ Mdx.hl_code (Mdx.highlightCall children className) = children)
  /\ (forall (hljs_highlight : Mdx.HighlightCall -> Mdx.outcome string)
             (allProps : gmap string string),
        let call :=
          Mdx.highlightCall (allProps !! "children"%string)
            (allProps !! "className"%string) in
        (forall message, hljs_highlight call = Mdx.Threw message ->
           Mdx.Code hljs_highlight allProps = Mdx.Threw message)
        /\ (forall html, hljs_highlight call = Mdx.Returned html ->
            exists attrs : gmap string string,
              Mdx.Code hljs_highlight allProps = Mdx.Returned attrs
              /\ attrs !! "className"%string = allProps !! "className"%string
              /\ attrs !! "children"%string = None
              /\ (allProps !! "dangerouslySetInnerHTML"%string = None ->
                  attrs !! "dangerouslySetInnerHTML"%string = Some html)
              /\ (forall k, k <> "className"%string -> k <> "children"%string ->
                            k <> "dangerouslySetInnerHTML"%string ->
                  attrs !! k = allProps !! k))).
Proof.
  assert (Hocc : forall (children : option string) (pre post : string),
             (forall i, i < Str.length pre ->
                occursAt "language-" (pre +:+ "language-" +:+ post) i = false) ->
             Mdx.hl_language
               (Mdx.highlightCall children (Some (pre +:+ "language-" +:+ post))) =
             pre +:+ post).
  { intros children pre post Hfirst.
    unfold Mdx.highlightCall, Mdx.codeLanguage. cbn [Mdx.hl_language].
    assert (Hne : Str.isEmpty (pre +:+ "language-" +:+ post) = false)
      by (destruct pre; reflexivity).
    rewrite Hne. apply (replaceFirst_first "language-" "" pre post Hfirst). }
  split; [|split; [|split; [|split; [|split; [|split]]]]].
  - intros children lang. apply (Hocc children EmptyString lang).
    intros i Hi. simpl in Hi. lia.
  - exact Hocc.
  - intros children c Hne Habs.
    unfold Mdx.highlightCall, Mdx.codeLanguage. cbn [Mdx.hl_language].
    destruct c as [|a c]; [contradiction|]. cbn [Str.isEmpty].
    now apply replaceFirst_absent.
  - intros c. apply first_occurrence.
  - intros children. split; reflexivity.
  - intros children className. split; reflexivity.
  - intros hljs_highlight allProps call. unfold Mdx.Code. fold call. split.
    + intros message ->. reflexivity.
    + intros html ->. eexists. split; [reflexivity|].
      apply Code_attributes.
Qed.

Lemma code_language_tag_witness :
  Mdx.hl_language
    (Mdx.highlightCall (Some "x = 1") (Some "hljs language-js")) =
  "hljs js"%string.
Proof.
  destruct code_language_tag as (_ & Hocc & _).
  apply (Hocc (Some "x = 1"%string) "hljs "%string "js"%string).
  intros i Hi.
  do 5 (destruct i as [|i]; [reflexivity|]). simpl in Hi. lia.
Defined.

(** C10 as stated fails on a class name that has 'language-' elsewhere than
    at its beginning, where it is that occurrence that is removed and there
    is no prefix to remove, and on the empty class name, which is present
    and gives 'python'. *)
Lemma code_language_counterexample :
  (Mdx.codeLanguage (Some "hljs language-js") = "hljs js"%string
   /\ withoutPrefix "language-" "hljs language-js" = "hljs language-js"%string
   /\ Mdx.codeLanguage (Some "hljs language-js") <>
        withoutPrefix "language-" "hljs language-js")
  /\ (Mdx.codeLanguage (Some "") = "python"%string
      /\ withoutPrefix "language-" "" = ""%string
      /\ Mdx.codeLanguage (Some "") <> withoutPrefix "language-" "").
Proof.
  split; (split; [reflexivity | split; [reflexivity | discriminate]]).
Qed.

(** * Further properties of the code *)

(** ** Characters, case by case *)

Ltac ascii_cases c :=
  let b0 := fresh in let b1 := fresh in let b2 := fresh in let b3 := fresh in
  let b4 := fresh in let b5 := fresh in let b6 := fresh in let b7 := fresh in
  destruct c as [b0 b1 b2 b3 b4 b5 b6 b7];
  destruct b0, b1, b2, b3, b4, b5, b6, b7.

Lemma toLower_not_upper (c : ascii) : Char.isUpper (Char.toLower c) = false.
Proof. ascii_cases c; reflexivity. Qed.

Lemma toLower_idempotent (c : ascii) :
  Char.toLower (Char.toLower c) = Char.toLower c.
Proof. ascii_cases c; reflexivity. Qed.

Lemma toLower_isSpace (c : ascii) :
  Char.isSpace (Char.toLower c) = Char.isSpace c.
Proof. ascii_cases c; reflexivity. Qed.

Lemma slugChar_word_lower (c : ascii) :
  (Char.isWord c || Char.isHyphen c) && negb (Char.isUpper c) = slugChar c.
Proof. ascii_cases c; reflexivity. Qed.

Lemma slugChar_toLower (c : ascii) : slugChar c = true -> Char.toLower c = c.
Proof. ascii_cases c; intros H; try reflexivity; discriminate H. Qed.

Lemma slugChar_not_space (c : ascii) : slugChar c = true -> Char.isSpace c = false.
Proof. ascii_cases c; intros H; try reflexivity; discriminate H. Qed.

Lemma slugChar_not_amp (c : ascii) : slugChar c = true -> Char.isAmp c = false.
Proof. ascii_cases c; intros H; try reflexivity; discriminate H. Qed.

Lemma slugChar_kept (c : ascii) :
  slugChar c = true -> Char.notWordHyphen c = false.
Proof. ascii_cases c; intros H; try reflexivity; discriminate H. Qed.

(** ** What the steps of the slug keep *)

Lemma all_impl (P Q : ascii -> bool) (s : string) :
  (forall c, P c = true -> Q c = true) ->
  Str.all P s = true -> Str.all Q s = true.
Proof.
  intros HPQ. induction s as [|c s IH]; simpl; [reflexivity|].
  intros H. apply andb_true_iff in H. destruct H as [Hc Hs].
  now rewrite (HPQ c Hc), IH.
Qed.

Lemma all_app (P : ascii -> bool) (s t : string) :
  Str.all P (s +:+ t) = Str.all P s && Str.all P t.
Proof.
  induction s as [|c s IH]; simpl; [reflexivity|].
  now rewrite IH, andb_assoc.
Qed.

Lemma all_andb (P Q : ascii -> bool) (s : string) :
  Str.all (fun c => P c && Q c) s = Str.all P s && Str.all Q s.
Proof.
  induction s as [|c s IH]; simpl; [reflexivity|].
  rewrite IH. destruct (P c), (Q c), (Str.all P s); reflexivity.
Qed.

Lemma all_toLowerCase (s : string) :
  Str.all (fun c => negb (Char.isUpper c)) (Str.toLowerCase s) = true.
Proof.
  unfold Str.toLowerCase.
  induction s as [|c s IH]; simpl; [reflexivity|].
  now rewrite toLower_not_upper, IH.
Qed.

Lemma all_dropRun_keep (P C : ascii -> bool) (s : string) :
  Str.all P s = true -> Str.all P (Str.dropRun C s) = true.
Proof.
  unfold Str.dropRun. induction s as [|c s IH]; simpl; [reflexivity|].
  intros H. apply andb_true_iff in H. destruct H as [Hc Hs].
  destruct (C c); simpl; [now apply IH | now rewrite Hc, Hs].
Qed.

Lemma all_trimEnd (P : ascii -> bool) (s : string) :
  Str.all P s = true -> Str.all P (Str.trimEnd s) = true.
Proof.
  induction s as [|c s IH]; simpl; [reflexivity|].
  intros H. apply andb_true_iff in H. destruct H as [Hc Hs].
  destruct (Char.isSpace c && Str.isEmpty (Str.trimEnd s)); simpl;
    [reflexivity | now rewrite Hc, IH].
Qed.

Lemma all_trim (P : ascii -> bool) (s : string) :
  Str.all P s = true -> Str.all P (Str.trim s) = true.
Proof. intros H. now apply all_trimEnd, all_dropRun_keep. Qed.

Lemma all_replaceRuns (P C : ascii -> bool) (r s : string) :
  Str.all P r = true -> Str.all P s = true ->
  Str.all P (SlugSpec.replaceRuns C r s) = true.
Proof.
  intros Hr. induction s as [|c s IH]; simpl; [reflexivity|].
  intros H. apply andb_true_iff in H. destruct H as [Hc Hs].
  destruct (C c); [destruct (SlugSpec.headIs C s)|].
  - now apply IH.
  - now rewrite all_app, Hr, IH.
  - simpl. now rewrite Hc, IH.
Qed.

Lemma all_replaceEach (P C : ascii -> bool) (r s : string) :
  Str.all P r = true -> Str.all P s = true ->
  Str.all P (SlugSpec.replaceEach C r s) = true.
Proof.
  intros Hr. induction s as [|c s IH]; simpl; [reflexivity|].
  intros H. apply andb_true_iff in H. destruct H as [Hc Hs].
  destruct (C c).
  - now rewrite all_app, Hr, IH.
  - simpl. now rewrite Hc, IH.
Qed.

Lemma all_keepOnly (P keep : ascii -> bool) (s : string) :
  Str.all P s = true -> Str.all P (SlugSpec.keepOnly keep s) = true.
Proof.
  induction s as [|c s IH]; simpl; [reflexivity|].
  intros H. apply andb_true_iff in H. destruct H as [Hc Hs].
  destruct (keep c); simpl; [now rewrite Hc, IH | now apply IH].
Qed.

Lemma all_keepOnly_kept (keep : ascii -> bool) (s : string) :
  Str.all keep (SlugSpec.keepOnly keep s) = true.
Proof.
  induction s as [|c s IH]; simpl; [reflexivity|].
  destruct (keep c) eqn:Hc; simpl; [now rewrite Hc, IH | exact IH].
Qed.

Lemma all_collapseHyphens (P : ascii -> bool) (s : string) :
  Str.all P s = true -> Str.all P (SlugSpec.collapseHyphens s) = true.
Proof.
  induction s as [|c s IH]; simpl; [reflexivity|].
  intros H. apply andb_true_iff in H. destruct H as [Hc Hs].
  destruct (Char.isHyphen c && SlugSpec.headIs Char.isHyphen s); simpl;
    [now apply IH | now rewrite Hc, IH].
Qed.

Lemma headIs_collapseHyphens (s : string) :
  SlugSpec.headIs Char.isHyphen (SlugSpec.collapseHyphens s) =
  SlugSpec.headIs Char.isHyphen s.
Proof.
  induction s as [|c s IH]; simpl; [reflexivity|].
  destruct (Char.isHyphen c) eqn:Hc; simpl; [|exact Hc].
  destruct (SlugSpec.headIs Char.isHyphen s) eqn:Hh; simpl; [|exact Hc].
  now rewrite IH.
Qed.

Lemma noDoubleHyphen_collapseHyphens (s : string) :
  noDoubleHyphen (SlugSpec.collapseHyphens s) = true.
Proof.
  induction s as [|c s IH]; simpl; [reflexivity|].
  destruct (Char.isHyphen c && SlugSpec.headIs Char.isHyphen s) eqn:Hd;
    [exact IH|].
  simpl. now rewrite headIs_collapseHyphens, Hd, IH.
Qed.

(** [slugify], step by step as in [SlugSpec.slug]. *)
Lemma slugify_slug (str : string) : Mdx.slugify str = SlugSpec.slug str.
Proof.
  unfold Mdx.slugify, SlugSpec.slug.
  unfold SlugSpec.hyphenateSpaces, SlugSpec.spellAmpersands,
    SlugSpec.keepWordAndHyphen.
  rewrite (replaceAll_Run_replaceRuns 1 Char.isSpace) by (left; lia).
  rewrite replaceAll_One_replaceEach.
  rewrite (replaceAll_Run_replaceRuns 1 Char.notWordHyphen) by (left; lia).
  rewrite replaceRuns_empty_keepOnly.
  rewrite (replaceAll_Run_replaceRuns 2 Char.isHyphen)
    by (right; split; [reflexivity | intros c Hc; now rewrite (isHyphen_eq c Hc)]).
  rewrite replaceRuns_hyphen_collapse.
  f_equal. apply keepOnly_ext.
  intros c. unfold Char.notWordHyphen. apply negb_involutive.
Qed.

Lemma slug_chars (str : string) : Str.all slugChar (SlugSpec.slug str) = true.
Proof.
  unfold SlugSpec.slug.
  apply (all_impl (fun c => (Char.isWord c || Char.isHyphen c)
                            && negb (Char.isUpper c))).
  { intros c H. now rewrite <- slugChar_word_lower. }
  rewrite all_andb. apply andb_true_iff. split.
  - apply all_collapseHyphens. unfold SlugSpec.keepWordAndHyphen.
    apply all_keepOnly_kept.
  - apply all_collapseHyphens. unfold SlugSpec.keepWordAndHyphen.
    apply all_keepOnly. unfold SlugSpec.spellAmpersands.
    apply all_replaceEach; [reflexivity|].
    unfold SlugSpec.hyphenateSpaces.
    apply all_replaceRuns; [reflexivity|].
    apply all_trim, all_toLowerCase.
Qed.

(** ** Strings that the steps of the slug leave alone *)

Lemma map_fixed (f : ascii -> ascii) (P : ascii -> bool) (s : string) :
  (forall c, P c = true -> f c = c) ->
  Str.all P s = true -> Str.map f s = s.
Proof.
  intros Hf. induction s as [|c s IH]; simpl; [reflexivity|].
  intros H. apply andb_true_iff in H. destruct H as [Hc Hs].
  now rewrite (Hf c Hc), IH.
Qed.

Lemma trimEnd_fixed (s : string) :
  Str.all (fun c => negb (Char.isSpace c)) s = true -> Str.trimEnd s = s.
Proof.
  induction s as [|c s IH]; simpl; [reflexivity|].
  intros H. apply andb_true_iff in H. destruct H as [Hc Hs].
  apply negb_true_iff in Hc. now rewrite Hc, IH.
Qed.

Lemma dropRun_fixed (C : ascii -> bool) (s : string) :
  Str.all (fun c => negb (C c)) s = true -> Str.dropRun C s = s.
Proof.
  intros H. apply dropRun_head_false.
  destruct s as [|c s]; simpl in *; [reflexivity|].
  apply andb_true_iff in H. destruct H as [Hc _]. now apply negb_true_iff.
Qed.

Lemma replaceRuns_fixed (C : ascii -> bool) (r s : string) :
  Str.all (fun c => negb (C c)) s = true -> SlugSpec.replaceRuns C r s = s.
Proof.
  induction s as [|c s IH]; simpl; [reflexivity|].
  intros H. apply andb_true_iff in H. destruct H as [Hc Hs].
  apply negb_true_iff in Hc. now rewrite Hc, IH.
Qed.

Lemma replaceEach_fixed (C : ascii -> bool) (r s : string) :
  Str.all (fun c => negb (C c)) s = true -> SlugSpec.replaceEach C r s = s.
Proof.
  induction s as [|c s IH]; simpl; [reflexivity|].
  intros H. apply andb_true_iff in H. destruct H as [Hc Hs].
  apply negb_true_iff in Hc. now rewrite Hc, IH.
Qed.

Lemma keepOnly_fixed (keep : ascii -> bool) (s : string) :
  Str.all keep s = true -> SlugSpec.keepOnly keep s = s.
Proof.
  induction s as [|c s IH]; simpl; [reflexivity|].
  intros H. apply andb_true_iff in H. destruct H as [Hc Hs].
  now rewrite Hc, IH.
Qed.

Lemma collapseHyphens_fixed (s : string) :
  noDoubleHyphen s = true -> SlugSpec.collapseHyphens s = s.
Proof.
  induction s as [|c s IH]; simpl; [reflexivity|].
  intros H. apply andb_true_iff in H. destruct H as [Hc Hs].
  apply negb_true_iff in Hc. now rewrite Hc, IH.
Qed.

Lemma slug_fixed (t : string) :
  Str.all slugChar t = true -> noDoubleHyphen t = true -> SlugSpec.slug t = t.
Proof.
  intros Hchars Hnd. unfold SlugSpec.slug.
  unfold Str.toLowerCase. rewrite (map_fixed _ slugChar t slugChar_toLower Hchars).
  unfold Str.trim, Str.trimStart.
  assert (Hsp : Str.all (fun c => negb (Char.isSpace c)) t = true).
  { apply (all_impl slugChar); [|exact Hchars].
    intros c Hc. now rewrite (slugChar_not_space c Hc). }
  rewrite (dropRun_fixed _ _ Hsp), (trimEnd_fixed _ Hsp).
  unfold SlugSpec.hyphenateSpaces. rewrite (replaceRuns_fixed _ _ _ Hsp).
  unfold SlugSpec.spellAmpersands. rewrite replaceEach_fixed.
  2:{ apply (all_impl slugChar); [|exact Hchars].
      intros c Hc. now rewrite (slugChar_not_amp c Hc). }
  unfold SlugSpec.keepWordAndHyphen. rewrite keepOnly_fixed.
  2:{ apply (all_impl slugChar); [|exact Hchars].
      intros c Hc. pose proof (slugChar_kept c Hc) as Hk.
      unfold Char.notWordHyphen in Hk. now apply negb_false_iff in Hk. }
  now apply collapseHyphens_fixed.
Qed.

(** X1.  A slug is made of the characters a-z, 0-9, '_' and '-' only, and
    has no two hyphens in a row, whatever the heading text is. *)
Theorem slugify_well_formed (str : string) :
  Str.all slugChar (Mdx.slugify str) = true
  /\ noDoubleHyphen (Mdx.slugify str) = true.
Proof.
  rewrite slugify_slug. split.
  - apply slug_chars.
  - unfold SlugSpec.slug. apply noDoubleHyphen_collapseHyphens.
Qed.

(** X2.  The strings that are their own slug are exactly the strings made
    of a-z, 0-9, '_' and '-' with no two hyphens in a row; so the slug of a
    slug is that slug. *)
Theorem slugify_fixed_points :
  (forall t : string,
      Mdx.slugify t = t <->
      Str.all slugChar t = true /\ noDoubleHyphen t = true)
  /\ (forall str : string,
        Mdx.slugify (Mdx.slugify str) = Mdx.slugify str).
Proof.
  assert (Hwf : forall s, Str.all slugChar (SlugSpec.slug s) = true /\
                          noDoubleHyphen (SlugSpec.slug s) = true).
  { intros s. split; [apply slug_chars|].
    unfold SlugSpec.slug. apply noDoubleHyphen_collapseHyphens. }
  split.
  - intros t. rewrite slugify_slug. split.
    + intros Heq. rewrite <- Heq. apply Hwf.
    + intros [Hc Hn]. now apply slug_fixed.
  - intros str. rewrite !slugify_slug.
    destruct (Hwf str) as [Hc Hn]. now apply slug_fixed.
Qed.

(** ** More on the search filter *)

Lemma filter_filter_same {A : Type} (f : A -> bool) (l : list A) :
  List.filter f (List.filter f l) = List.filter f l.
Proof.
  induction l as [|x l IH]; simpl; [reflexivity|].
  destruct (f x) eqn:Hx; simpl; [now rewrite Hx, IH | exact IH].
Qed.

Lemma filter_sublist_impl {A : Type} (f g : A -> bool) (l : list A) :
  (forall x, In x l -> g x = true -> f x = true) ->
  sublist (List.filter g l) (List.filter f l).
Proof.
  induction l as [|x l IH]; intros Himp; simpl; [constructor|].
  assert (IH' : sublist (List.filter g l) (List.filter f l)).
  { apply IH. intros y Hy. apply Himp. now right. }
  destruct (g x) eqn:Hg.
  - rewrite (Himp x (or_introl eq_refl) Hg). now constructor.
  - destruct (f x); [now constructor | exact IH'].
Qed.

Lemma length_string_of_list (l : list ascii) :
  Str.length (string_of_list_ascii l) = length l.
Proof. induction l as [|c l IH]; simpl; [reflexivity | now rewrite IH]. Qed.

(** Some piece of [s.split(/C+/)] is not empty exactly when a character
    outside [C] has been collected or is still to come. *)
Lemma splitFrom_has_word (C : ascii -> bool) (s : string) :
  forall (skip : nat) (cur : list ascii),
    skip <= Str.runLength C s ->
    existsb (fun w => 0 <? Str.length w)
      (Regex.splitFrom (Regex.Run 1 C) skip cur s) =
    (0 <? length cur) || negb (Str.all C s).
Proof.
  induction s as [|c s IH]; intros skip cur Hskip.
  - simpl. rewrite length_string_of_list, length_rev.
    now rewrite !orb_false_r.
  - destruct skip as [|k].
    + cbn [Regex.splitFrom Regex.matchLength Str.runLength].
      destruct (C c) eqn:Hc.
      * cbn [Nat.leb andb Nat.pred existsb].
        rewrite (IH (Str.runLength C s) [] (Nat.le_refl _)).
        rewrite length_string_of_list, length_rev.
        simpl. rewrite Hc. reflexivity.
      * cbn [Nat.leb andb].
        rewrite (IH 0 (c :: cur) (Nat.le_0_l _)).
        simpl. rewrite Hc. simpl. now rewrite orb_true_r.
    + simpl in Hskip. destruct (C c) eqn:Hc; [|lia].
      cbn [Regex.splitFrom]. rewrite (IH k cur) by lia.
      simpl. rewrite Hc. reflexivity.
Qed.

Lemma existsb_filter_nil {A : Type} (f : A -> bool) (l : list A) :
  existsb f l = false <-> List.filter f l = [].
Proof.
  induction l as [|x l IH]; simpl; [tauto|].
  destruct (f x); simpl; [split; discriminate | exact IH].
Qed.

Lemma all_isSpace_toLowerCase (s : string) :
  Str.all Char.isSpace (Str.toLowerCase s) = Str.all Char.isSpace s.
Proof.
  unfold Str.toLowerCase.
  induction s as [|c s IH]; simpl; [reflexivity|].
  now rewrite toLower_isSpace, IH.
Qed.

Lemma queryWords_nil (query : string) :
  Search.queryWords query = [] <-> Str.all Char.isSpace query = true.
Proof.
  unfold Search.queryWords, Regex.split.
  rewrite <- existsb_filter_nil.
  rewrite (splitFrom_has_word Char.isSpace _ 0 [] (Nat.le_0_l _)).
  rewrite all_isSpace_toLowerCase. simpl.
  destruct (Str.all Char.isSpace query); simpl; split; congruence.
Qed.

Lemma titleMatches_ext (ws1 ws2 : list string) (post : BlogPost) :
  (forall w, In w ws1 -> In w ws2) ->
  Search.titleMatches ws2 post = true -> Search.titleMatches ws1 post = true.
Proof.
  intros Hsub. rewrite !titleMatches_spec. intros H w Hw. now apply H, Hsub.
Qed.

(** X3.  The filter judges each post on its own: the result on two lists
    put end to end is the two results put end to end, and filtering a
    result again with the same query gives it back. *)
Theorem filterPosts_post_by_post (query : string) (ps qs : list BlogPost) :
  Search.filterPosts query (ps ++ qs) =
    Search.filterPosts query ps ++ Search.filterPosts query qs
  /\ Search.filterPosts query (Search.filterPosts query ps) =
       Search.filterPosts query ps.
Proof.
  unfold Search.filterPosts.
  destruct (Str.isEmpty (Str.trim query)); [now split|].
  split; [apply List.filter_app | apply filter_filter_same].
Qed.

(** X4.  A query has no word exactly when it is empty or white space only.
    The result depends on the set of query words alone: two queries with
    the same words, in any order and with any repetition, give the same
    posts. *)
Theorem filterPosts_word_set :
  (forall query, Search.queryWords query = [] <->
                 Str.all Char.isSpace query = true)
  /\ (forall (q1 q2 : string) (ps : list BlogPost),
        (forall w, In w (Search.queryWords q1) <-> In w (Search.queryWords q2)) ->
        Search.filterPosts q1 ps = Search.filterPosts q2 ps).
Proof.
  split; [exact queryWords_nil|].
  intros q1 q2 ps Hsame.
  destruct (Str.all Char.isSpace q1) eqn:H1.
  - assert (H2 : Str.all Char.isSpace q2 = true).
    { apply queryWords_nil. apply queryWords_nil in H1.
      destruct (Search.queryWords q2) as [|w ws]; [reflexivity|].
      exfalso. rewrite H1 in Hsame. apply (proj2 (Hsame w)). now left. }
    now rewrite !filterPosts_blank.
  - assert (H2 : Str.all Char.isSpace q2 = false).
    { destruct (Str.all Char.isSpace q2) eqn:H2; [|reflexivity].
      exfalso. apply queryWords_nil in H2.
      destruct (Search.queryWords q1) as [|w ws] eqn:Hw.
      - apply queryWords_nil in Hw. congruence.
      - rewrite H2 in Hsame. apply (proj1 (Hsame w)). now left. }
    rewrite !filterPosts_nonblank by assumption.
    apply List.filter_ext. intros post.
    apply eq_true_iff_eq. split; apply titleMatches_ext; intros w; apply Hsame.
Qed.

(** X5.  More words, fewer posts: when every word of a query that is not
    blank is also a word of a second query, the posts found by the second
    are, in order, among the posts found by the first. *)
Theorem filterPosts_narrows (q1 q2 : string) (ps : list BlogPost) :
  Str.all Char.isSpace q1 = false ->
  (forall w, In w (Search.queryWords q1) -> In w (Search.queryWords q2)) ->
  sublist (Search.filterPosts q2 ps) (Search.filterPosts q1 ps).
Proof.
  intros H1 Hsub.
  destruct (Str.all Char.isSpace q2) eqn:H2.
  - rewrite (filterPosts_blank q2) by exact H2. apply sublist_nil_l.
  - rewrite !filterPosts_nonblank by assumption.
    apply filter_sublist_impl. intros post _. now apply titleMatches_ext.
Qed.

Lemma filterPosts_narrows_witness :
  sublist (Search.filterPosts "rules white" [whiteHouse; older])
          (Search.filterPosts "white" [whiteHouse; older]).
Proof.
  apply (filterPosts_narrows "white" "rules white" [whiteHouse; older]).
  - reflexivity.
  - intros w [<- | []]. right; left; reflexivity.
Defined.

(** X6.  A query word with a character outside a-z and 0-9 (after
    lowercasing) finds nothing: title words are split at every such
    character, so no title word can be equal to it. *)
Theorem filterPosts_punctuated_word
  (query w : string) (ps : list BlogPost) :
  In w (Search.queryWords query) ->
  Str.all (fun c => Char.isLower c || Char.isDigit c) w = false ->
  Search.filterPosts query ps = [].
Proof.
  intros Hw Hbad.
  destruct (Search.filterPosts query ps) as [|post rest] eqn:Hres; [reflexivity|].
  exfalso.
  assert (Hin : In post (Search.filterPosts query ps)) by (rewrite Hres; now left).
  apply filterPosts_In in Hin. destruct Hin as [_ Hall].
  pose proof (titleWords_alnum post w (Hall w Hw)) as Hgood. congruence.
Qed.

Lemma filterPosts_punctuated_word_witness :
  Search.filterPosts "rules!" [whiteHouse] = [].
Proof.
  apply (filterPosts_punctuated_word "rules!" "rules!" [whiteHouse]).
  - left; reflexivity.
  - reflexivity.
Defined.

Lemma toLowerCase_idempotent (s : string) :
  Str.toLowerCase (Str.toLowerCase s) = Str.toLowerCase s.
Proof.
  unfold Str.toLowerCase.
  induction s as [|c s IH]; simpl; [reflexivity|].
  now rewrite toLower_idempotent, IH.
Qed.

(** X7.  The search ignores letter case in the query: two queries with the
    same lowercase form give the same posts, so a query and its lowercase
    form do. *)
Theorem filterPosts_ignores_case (q1 q2 : string) (ps : list BlogPost) :
  Str.toLowerCase q1 = Str.toLowerCase q2 ->
  Search.filterPosts q1 ps = Search.filterPosts q2 ps
  /\ Search.filterPosts (Str.toLowerCase q1) ps = Search.filterPosts q1 ps.
Proof.
  assert (Hdep : forall a b, Str.toLowerCase a = Str.toLowerCase b ->
                   Search.filterPosts a ps = Search.filterPosts b ps).
  { intros a b Hab. unfold Search.filterPosts, Search.queryWords.
    rewrite !isEmpty_trim, <- (all_isSpace_toLowerCase a),
      <- (all_isSpace_toLowerCase b), Hab. reflexivity. }
  intros Heq. split; [now apply Hdep|].
  apply Hdep, toLowerCase_idempotent.
Qed.

Lemma filterPosts_ignores_case_witness :
  Search.filterPosts "WHITE house" [whiteHouse] =
  Search.filterPosts "white HOUSE" [whiteHouse].
Proof.
  apply (filterPosts_ignores_case "WHITE house" "white HOUSE" [whiteHouse]).
  reflexivity.
Defined.

(** ** The state of the search view *)

Lemma fold_step_closed_form (evs : list Search.event) :
  forall (q : string) (data : list BlogPost),
    fold_left Search.step evs
      (Search.mkState q (Search.filterPosts q data) data) =
    let q' := fold_left (fun acc ev =>
                           match ev with
                           | Search.Typed q0 => q0
                           | Search.FetchSettled _ => acc
                           end) evs q in
    let data' := fold_left (fun acc ev =>
                   match ev with
                   | Search.Typed _ => acc
                   | Search.FetchSettled fetched =>
                       match Search.andThen fetched Search.json with
                       | Search.Fulfilled d => d
                       | Search.Rejected _ => acc
                       end
                   end) evs data in
    Search.mkState q' (Search.filterPosts q' data') data'.
Proof.
  induction evs as [|ev evs IH]; intros q data; [reflexivity|].
  cbn [fold_left]. destruct ev as [q0 | fetched].
  - change (Search.step (Search.mkState q (Search.filterPosts q data) data)
              (Search.Typed q0))
      with (Search.mkState q0 (Search.filterPosts q0 data) data).
    apply IH.
  - unfold Search.step, Search.fetchChain.
    destruct (Search.andThen fetched Search.json) as [d | reason]; simpl.
    + change (Search.filterEffect
                (Search.setAllPosts d
                   (Search.mkState q (Search.filterPosts q data) data)))
        with (Search.mkState q (Search.filterPosts q d) d).
      apply IH.
    + apply IH.
Qed.

Lemma step_Typed_FetchSettled (st : Search.State) (q : string)
  (fetched : Search.promise Search.Response) :
  Search.step (Search.step st (Search.Typed q)) (Search.FetchSettled fetched) =
  Search.step (Search.step st (Search.FetchSettled fetched)) (Search.Typed q).
Proof.
  unfold Search.step, Search.fetchChain.
  destruct (Search.andThen fetched Search.json) as [d | reason]; reflexivity.
Qed.

(** X8.  After any sequence of keystrokes and fetch outcomes the state of
    the search view holds the query typed last, the posts fetched last, and
    the filter of the one by the other: [filteredPosts] is never stale.  A
    keystroke and the arrival of a fetch may come in either order without
    changing the state that follows. *)
Theorem search_state_is_current :
  (forall evs : list Search.event,
      Search.run evs =
      Search.mkState (lastTyped evs)
        (Search.filterPosts (lastTyped evs) (lastFetched evs))
        (lastFetched evs))
  /\ (forall (evs1 evs2 : list Search.event) (q : string)
             (fetched : Search.promise Search.Response),
        Search.run (evs1 ++ Search.Typed q :: Search.FetchSettled fetched :: evs2) =
        Search.run (evs1 ++ Search.FetchSettled fetched :: Search.Typed q :: evs2)).
Proof.
  split.
  - intros evs. unfold Search.run, lastTyped, lastFetched.
    change (Search.filterEffect Search.initial)
      with (Search.mkState "" (Search.filterPosts "" []) []).
    apply fold_step_closed_form.
  - intros evs1 evs2 q fetched. unfold Search.run.
    rewrite !fold_left_app. cbn [fold_left].
    now rewrite step_Typed_FetchSettled.
Qed.

(** ** More on the listing *)

Lemma StronglySorted_impl {A : Type} (R S : A -> A -> Prop) (l : list A) :
  (forall a b, R a b -> S a b) -> StronglySorted R l -> StronglySorted S l.
Proof.
  intros HRS Hs. induction Hs as [|x l Hs IH Hall]; constructor.
  - exact IH.
  - eapply Forall_impl; [|exact Hall]. intros b. apply HRS.
Qed.

Lemma compareFn_negative (dv : string -> option Z) (a b : BlogPost) :
  (Listing.compareFn dv a b <? 0)%Z = true <-> strictlyAfter dv a b.
Proof.
  rewrite <- dateAfter_true. unfold Listing.compareFn.
  destruct (Listing.dateAfter dv (publishedAt (metadata a))
              (publishedAt (metadata b)));
    split; intros H; try reflexivity; discriminate H.
Qed.

Lemma sorted_newestFirst (dv : string -> option Z) (l : list BlogPost) :
  newestFirst dv l -> Listing.sorted dv l = l.
Proof.
  unfold newestFirst, Listing.sorted.
  induction 1 as [|x l Hs IH Hall]; simpl; [reflexivity|].
  rewrite IH. destruct l as [|y l']; [reflexivity|]. simpl.
  destruct (Listing.compareFn dv y x <? 0)%Z eqn:Hneg; [|reflexivity].
  exfalso. apply compareFn_negative in Hneg.
  inversion Hall as [|? ? Hy _]; subst. now apply Hy.
Qed.

Lemma descending_newestFirst (dv : string -> option Z) (l : list BlogPost) :
  descending (timeOf dv) l -> newestFirst dv l.
Proof.
  apply StronglySorted_impl.
  intros a b Hle (tb & ta & Htb & Hta & Hlt).
  unfold timeOf in Hle. rewrite Hta, Htb in Hle. lia.
Qed.

(** X9.  The listing shows every post of the collection exactly once: the
    display order is a rearrangement of the collection and there are as
    many cards as posts, whether the dates are valid or not. *)
Theorem listing_shows_every_post
  (Date_valueOf : string -> option Z) (formatDate : string -> string)
  (allBlogs : list BlogPost) :
  Permutation (Listing.sorted Date_valueOf allBlogs) allBlogs
  /\ Permutation (Listing.BlogPosts Date_valueOf formatDate allBlogs)
       (List.map (Listing.card formatDate) allBlogs)
  /\ length (Listing.BlogPosts Date_valueOf formatDate allBlogs) = length allBlogs.
Proof.
  pose proof (sort_Permutation (Listing.compareFn Date_valueOf) allBlogs) as Hp.
  split; [exact Hp|]. split.
  - unfold Listing.BlogPosts, Listing.sorted. now apply Permutation_map.
  - unfold Listing.BlogPosts, Listing.sorted.
    rewrite length_map. now apply Permutation_length.
Qed.

(** X10.  A collection in which no post is strictly after a post standing
    before it is displayed as it is.  When every date is valid, these are
    the only collections displayed as they are, and sorting the display
    order again changes nothing. *)
Theorem listing_keeps_newest_first
  (Date_valueOf : string -> option Z) (allBlogs : list BlogPost) :
  (newestFirst Date_valueOf allBlogs ->
   Listing.sorted Date_valueOf allBlogs = allBlogs)
  /\ ((forall p, In p allBlogs -> hasDate Date_valueOf p) ->
      (Listing.sorted Date_valueOf allBlogs = allBlogs ->
       newestFirst Date_valueOf allBlogs)
      /\ Listing.sorted Date_valueOf (Listing.sorted Date_valueOf allBlogs) =
         Listing.sorted Date_valueOf allBlogs).
Proof.
  split; [apply sorted_newestFirst|].
  intros Hdates.
  assert (Hnf : newestFirst Date_valueOf (Listing.sorted Date_valueOf allBlogs)).
  { apply descending_newestFirst. unfold Listing.sorted.
    apply sort_descending, compareFn_agrees, Hdates. }
  split.
  - intros Heq. now rewrite Heq in Hnf.
  - now apply sorted_newestFirst.
Qed.

Lemma listing_keeps_newest_first_witness :
  Listing.sorted exampleDates [newer; older; older] = [newer; older; older].
Proof.
  apply (proj1 (listing_keeps_newest_first exampleDates [newer; older; older])).
  repeat constructor; intros (ta & tb & Ha & Hb & Hlt);
    vm_compute in Ha, Hb; injection Ha as <-; injection Hb as <-; lia.
Defined.

(** ** Tables *)

Lemma map_mapFrom {A B C : Type} (g : B -> C) (f : A -> nat -> B) (l : list A) :
  forall i, List.map g (mapFrom f i l) = mapFrom (fun x k => g (f x k)) i l.
Proof. induction l as [|x l IH]; intros i; simpl; [reflexivity | now rewrite IH]. Qed.

Lemma mapFrom_value {A : Type} (l : list A) :
  forall i, mapFrom (fun x _ => x) i l = l.
Proof. induction l as [|x l IH]; intros i; simpl; [reflexivity | now rewrite IH]. Qed.

Lemma mapFrom_index {A : Type} (l : list A) :
  forall i, mapFrom (fun _ k => k) i l = seq i (length l).
Proof. induction l as [|x l IH]; intros i; simpl; [reflexivity | now rewrite IH]. Qed.

Lemma mapFrom_ext {A B : Type} (f g : A -> nat -> B) (l : list A) :
  (forall x k, f x k = g x k) -> forall i, mapFrom f i l = mapFrom g i l.
Proof.
  intros Hfg. induction l as [|x l IH]; intros i; simpl; [reflexivity|].
  now rewrite Hfg, IH.
Qed.

Lemma length_mapFrom {A B : Type} (f : A -> nat -> B) (l : list A) :
  forall i, length (mapFrom f i l) = length l.
Proof. induction l as [|x l IH]; intros i; simpl; [reflexivity | now rewrite IH]. Qed.

Lemma Forall_mapFrom {A B : Type} (P : B -> Prop) (f : A -> nat -> B) (l : list A) :
  (forall x k, P (f x k)) -> forall i, Forall P (mapFrom f i l).
Proof.
  intros HP. induction l as [|x l IH]; intros i; simpl; constructor;
    [apply HP | apply IH].
Qed.

(** X11.  A table shows its data and nothing else: the contents of the
    header cells and of the body cells, read back in order, are the headers
    and the rows given, row by row and with the length of each row as it
    is (a row is neither padded nor cut to the number of headers).  Two
    different data give two different tables. *)
Theorem Table_shows_the_data :
  (forall data, readTable (Components.Table data) = data)
  /\ (forall d1 d2, Components.Table d1 = Components.Table d2 -> d1 = d2).
Proof.
  assert (Hread : forall data, readTable (Components.Table data) = data).
  { intros [hs rs]. unfold readTable, Components.Table, mapIndexed. simpl.
    f_equal.
    - rewrite map_mapFrom. simpl. apply mapFrom_value.
    - rewrite map_mapFrom. simpl.
      rewrite (mapFrom_ext _ (fun x _ => x)); [apply mapFrom_value|].
      intros row k. rewrite map_mapFrom. simpl. apply mapFrom_value. }
  split; [exact Hread|].
  intros d1 d2 Heq. rewrite <- (Hread d1), <- (Hread d2). now rewrite Heq.
Qed.

(** X12.  The keys of a table are positions: the header cells, the rows
    and the cells of each row are keyed 0, 1, 2, ... in order, so no two
    siblings share a key, and every header is a [th] and every body cell a
    [td]. *)
Theorem Table_keys_are_positions (data : Components.TableData) :
  let t := Components.Table data in
  List.map Components.cell_key (Components.thead t) =
    seq 0 (length (Components.headers data))
  /\ List.map Components.row_key (Components.tbody t) =
       seq 0 (length (Components.rows data))
  /\ Forall (fun r =>
               List.map Components.cell_key (Components.row_cells r) =
                 seq 0 (length (Components.row_cells r))
               /\ NoDup (List.map Components.cell_key (Components.row_cells r))
               /\ Forall (fun c => Components.cell_tag c = Components.Td)
                    (Components.row_cells r))
       (Components.tbody t)
  /\ NoDup (List.map Components.cell_key (Components.thead t))
  /\ NoDup (List.map Components.row_key (Components.tbody t))
  /\ Forall (fun c => Components.cell_tag c = Components.Th) (Components.thead t).
Proof.
  destruct data as [hs rs]. unfold Components.Table, mapIndexed. simpl.
  assert (Hh : List.map Components.cell_key
                 (mapFrom (fun header index =>
                    Components.mkCell Components.Th index header) 0 hs) =
               seq 0 (length hs)).
  { rewrite map_mapFrom. simpl. apply mapFrom_index. }
  assert (Hr : List.map Components.row_key
                 (mapFrom (fun row index =>
                    Components.mkRow index
                      (mapFrom (fun cell cellIndex =>
                         Components.mkCell Components.Td cellIndex cell) 0 row))
                    0 rs) = seq 0 (length rs)).
  { rewrite map_mapFrom. simpl. apply mapFrom_index. }
  split; [exact Hh|]. split; [exact Hr|]. split; [|split; [|split]].
  - apply Forall_mapFrom. intros row k. simpl.
    rewrite map_mapFrom, length_mapFrom. simpl. rewrite mapFrom_index.
    split; [reflexivity|]. split; [apply seq_NoDup|].
    apply Forall_mapFrom. reflexivity.
  - rewrite Hh. apply seq_NoDup.
  - rewrite Hr. apply seq_NoDup.
  - apply Forall_mapFrom. reflexivity.
Qed.

(** ** Class names *)

Lemma append_assoc_str (a b c : string) : (a +:+ b) +:+ c = a +:+ (b +:+ c).
Proof.
  induction a as [|x a IH]; [reflexivity|].
  change (String x ((a +:+ b) +:+ c) = String x (a +:+ (b +:+ c))).
  now rewrite IH.
Qed.

Lemma isEmpty_true (s : string) : Str.isEmpty s = true <-> s = EmptyString.
Proof. destruct s; simpl; split; congruence. Qed.

Lemma isEmpty_append (a b : string) :
  Str.isEmpty (a +:+ b) = Str.isEmpty a && Str.isEmpty b.
Proof. destruct a; reflexivity. Qed.

Lemma join_app (sep : string) (l1 l2 : list string) :
  l1 <> [] -> l2 <> [] ->
  join sep (l1 ++ l2) = join sep l1 +:+ sep +:+ join sep l2.
Proof.
  intros H1 H2. induction l1 as [|a l1 IH]; [contradiction|].
  destruct l1 as [|b l1].
  - destruct l2 as [|c l2]; [contradiction | reflexivity].
  - change (join sep ((a :: b :: l1) ++ l2))
      with (a +:+ sep +:+ join sep ((b :: l1) ++ l2)).
    rewrite IH by discriminate.
    change (join sep (a :: b :: l1)) with (a +:+ sep +:+ join sep (b :: l1)).
    now rewrite !append_assoc_str.
Qed.

Lemma isEmpty_join (sep : string) (l : list string) :
  Forall (fun s => Str.isEmpty s = false) l ->
  Str.isEmpty (join sep l) = match l with [] => true | _ :: _ => false end.
Proof.
  intros Hall. destruct Hall as [|a l Ha _]; [reflexivity|].
  destruct l as [|b l]; simpl; [exact Ha|].
  now rewrite isEmpty_append, Ha.
Qed.

Lemma kept_nonempty (classes : list (option string)) :
  Forall (fun s => Str.isEmpty s = false)
    (List.map (default EmptyString) (List.filter Layout.truthy classes)).
Proof.
  induction classes as [|v classes IH]; simpl; [constructor|].
  destruct v as [s|]; simpl; [|exact IH].
  destruct (Str.isEmpty s) eqn:Hs; simpl; [exact IH|].
  constructor; [exact Hs | exact IH].
Qed.

Lemma isEmpty_cx (classes : list (option string)) :
  Str.isEmpty (Layout.cx classes) =
  match List.filter Layout.truthy classes with [] => true | _ :: _ => false end.
Proof.
  unfold Layout.cx. rewrite (isEmpty_join _ _ (kept_nonempty classes)).
  now destruct (List.filter Layout.truthy classes).
Qed.

Lemma filter_nil_Forall {A : Type} (f : A -> bool) (l : list A) :
  List.filter f l = [] <-> Forall (fun x => f x = false) l.
Proof.
  induction l as [|x l IH]; simpl.
  - split; [constructor | reflexivity].
  - destruct (f x) eqn:Hx.
    + split; [discriminate|]. intros H. inversion H; congruence.
    + rewrite IH. split; [now constructor | intros H; now inversion H].
Qed.

(** X13.  [cx] gives the empty string exactly when no class is given:
    every argument is missing, false or the empty string. *)
Theorem cx_empty_iff (classes : list (option string)) :
  Layout.cx classes = EmptyString <->
  Forall (fun v => Layout.truthy v = false) classes.
Proof.
  rewrite <- isEmpty_true, isEmpty_cx, <- filter_nil_Forall.
  destruct (List.filter Layout.truthy classes); split; congruence.
Qed.

(** X14.  [cx] on two lists of classes put end to end is the two results
    joined by one space, or the one result that is not empty: there is
    never a space at either end or two spaces in a row because of a missing
    class.  A missing, false or empty class changes nothing wherever it
    stands. *)
Theorem cx_app :
  (forall xs ys : list (option string),
      Layout.cx (xs ++ ys) =
      if Str.isEmpty (Layout.cx xs) then Layout.cx ys
      else if Str.isEmpty (Layout.cx ys) then Layout.cx xs
      else Layout.cx xs +:+ " " +:+ Layout.cx ys)
  /\ (forall (xs ys : list (option string)) (v : option string),
        Layout.truthy v = false ->
        Layout.cx (xs ++ v :: ys) = Layout.cx (xs ++ ys)).
Proof.
  split.
  - intros xs ys. rewrite !isEmpty_cx. unfold Layout.cx.
    rewrite List.filter_app, List.map_app.
    destruct (List.filter Layout.truthy xs) as [|x xs'] eqn:Hx; [reflexivity|].
    destruct (List.filter Layout.truthy ys) as [|y ys'] eqn:Hy.
    + now rewrite app_nil_r.
    + apply join_app; discriminate.
  - intros xs ys v Hv. unfold Layout.cx.
    rewrite !List.filter_app. simpl. now rewrite Hv.
Qed.

(** ** Images *)

(** X15.  [RoundedImage] hands every prop it is given to [Image]
    unchanged, and adds nothing but the class: the class is 'rounded-lg'
    when the props give none, and the props' own class, in place of it,
    when they give one. *)
Theorem RoundedImage_props (props : gmap string string) :
  (forall k, k <> "className"%string ->
     Components.RoundedImage props !! k = props !! k)
  /\ (props !! "className"%string = None ->
      Components.RoundedImage props !! "className"%string =
        Some "rounded-lg"%string)
  /\ (forall c, props !! "className"%string = Some c ->
      Components.RoundedImage props !! "className"%string = Some c).
Proof.
  unfold Components.RoundedImage. split; [|split].
  - intros k Hk.
    destruct (props !! k) as [v|] eqn:Hpk; [now apply lookup_union_Some_l|].
    rewrite lookup_union_r by exact Hpk.
    rewrite lookup_union_l by (now apply lookup_singleton_ne).
    destruct (props !! "alt"%string) as [alt|] eqn:Halt; [|apply lookup_empty].
    apply lookup_singleton_None. intros <-. congruence.
  - intros Hnone. rewrite lookup_union_r by exact Hnone.
    rewrite lookup_union_r; [apply lookup_singleton_eq|].
    destruct (props !! "alt"%string); [|apply lookup_empty].
    now apply lookup_singleton_ne.
  - intros c Hc. now apply lookup_union_Some_l.
Qed.

(** ** Headings and the table of components *)

(** X16.  The keys h1 to h6 of the table of components, and no other key,
    stand for heading components, and the heading under the key hN renders
    the tag hN.  Whatever the level and the text, the [id] of the heading
    is the slug of the text, made of a-z, 0-9, '_' and '-' only, and the
    anchor put in the heading points to that [id]. *)
Theorem heading_components :
  (forall (k : string) (level : nat),
      Components.components !! k = Some (Components.Heading level) <->
      1 <= level <= 6 /\
      k = Components.h_tag (Components.createHeading level ""))
  /\ (forall (level : nat) (children : string),
        let h := Components.createHeading level children in
        Components.h_id h = Mdx.slugify children
        /\ Components.anchor_href h = "#" +:+ Components.h_id h
        /\ Str.all slugChar (Components.h_id h) = true
        /\ Components.h_children h = children).
Proof.
  split.
  - intros k level. split.
    + intros H. unfold Components.components in H.
      repeat (apply lookup_insert_Some in H;
              destruct H as [[<- H] | [_ H]];
              [first [ discriminate H
                     | injection H as <-; split; [lia | reflexivity] ] |]).
      apply lookup_singleton_Some in H. destruct H as [_ H]. discriminate H.
    + intros [Hl ->].
      do 7 (destruct level as [|level]; [first [lia | reflexivity]|]). lia.
  - intros level children. simpl.
    repeat split. rewrite slugify_slug. apply slug_chars.
Qed.

(** X17.  [CustomMDX] lets the caller replace a component of the table but
    never lose one: a key the caller supplies gets the caller's component,
    every other key keeps the component of the table, and with no
    components supplied the table is used as it is. *)
Theorem CustomMDX_components :
  Components.CustomMDX None = Components.components
  /\ (forall (supplied : gmap string Components.component) (k : string),
        (forall c, supplied !! k = Some c ->
           Components.CustomMDX (Some supplied) !! k = Some c)
        /\ (supplied !! k = None ->
            Components.CustomMDX (Some supplied) !! k =
              Components.components !! k)
        /\ (is_Some (Components.components !! k) ->
            is_Some (Components.CustomMDX (Some supplied) !! k))).
Proof.
  split.
  - unfold Components.CustomMDX. simpl. apply (left_id ∅ (∪)).
  - intros supplied k. unfold Components.CustomMDX. simpl.
    split; [|split].
    + intros c Hc. now apply lookup_union_Some_l.
    + intros Hnone. now apply lookup_union_r.
    + intros Hsome. destruct (supplied !! k) as [c|] eqn:Hk.
      * exists c. now apply lookup_union_Some_l.
      * now rewrite lookup_union_r.
Qed.

(** ** Links, once more *)

(** X18.  [CustomLink] fails exactly when the props have no [href].  When
    it renders, in each of its three cases, the element carries every prop
    it was given, unchanged, and its [href] is the [href] given. *)
Theorem CustomLink_passes_props (props : gmap string string) :
  (Mdx.CustomLink props = None <-> props !! "href"%string = None)
  /\ (forall el, Mdx.CustomLink props = Some el ->
        (forall k v, props !! k = Some v -> attrsOf el !! k = Some v)
        /\ attrsOf el !! "href"%string = props !! "href"%string).
Proof.
  unfold Mdx.CustomLink.
  destruct (props !! "href"%string) as [href|] eqn:Hhref.
  - split.
    + destruct (Str.startsWith "/" href), (Str.startsWith "#" href);
        split; discriminate.
    + intros el Hel.
      assert (Hcases : el = Mdx.NextLink props \/ el = Mdx.Anchor props \/
                       el = Mdx.Anchor (props ∪ Mdx.externalDefaults)).
      { rewrite (union_own_href props href Hhref) in Hel.
        destruct (Str.startsWith "/" href), (Str.startsWith "#" href);
          injection Hel as <-; auto. }
      destruct Hcases as [-> | [-> | ->]]; simpl.
      * split; [auto | exact Hhref].
      * split; [auto | exact Hhref].
      * split.
        -- intros k v Hk. now apply lookup_union_Some_l.
        -- now apply lookup_union_Some_l.
  - split; [split; reflexivity|]. intros el Hel. discriminate Hel.
Qed.

(** ** Dates *)

Lemma includes_unfold (p s : string) :
  DateFormat.includes p s =
  Str.startsWith p s ||
  match s with
  | EmptyString => false
  | String _ s' => DateFormat.includes p s'
  end.
Proof. destruct s; reflexivity. Qed.

Lemma includes_app_r (p s t : string) :
  DateFormat.includes p (s +:+ p +:+ t) = true.
Proof.
  induction s as [|c s IH].
  - change (EmptyString +:+ p +:+ t) with (p +:+ t).
    rewrite includes_unfold, startsWith_app. reflexivity.
  - change (String c s +:+ p +:+ t) with (String c (s +:+ p +:+ t)).
    rewrite includes_unfold, IH. apply orb_true_r.
Qed.

Lemma includes_withTime (date : string) :
  DateFormat.includes "T" (DateFormat.withTime date) = true.
Proof.
  unfold DateFormat.withTime.
  destruct (DateFormat.includes "T" date) eqn:HT; simpl; [exact HT|].
  apply (includes_app_r "T" date "00:00:00").
Qed.

(** X19.  [formatDate] reads a date string without a 'T' as the same day
    at midnight: it is formatted as the string followed by 'T00:00:00' is.
    A string that has a 'T' is passed to the engine as it is, and without
    the relative part the result is the engine's long form of that date,
    whatever the current date is. *)
Theorem formatDate_date_only
  (currentDate : DateFormat.DateFields)
  (Date_fields : string -> option DateFormat.DateFields)
  (toLocaleString : string -> string) (date : string) :
  (DateFormat.includes "T" date = false ->
   forall includeRelative,
     DateFormat.formatDate currentDate Date_fields toLocaleString
       date includeRelative =
     DateFormat.formatDate currentDate Date_fields toLocaleString
       (date +:+ "T00:00:00") includeRelative)
  /\ (DateFormat.includes "T" date = true ->
      DateFormat.formatDate currentDate Date_fields toLocaleString date false =
        toLocaleString date)
  /\ DateFormat.withTime (DateFormat.withTime date) = DateFormat.withTime date
  /\ (forall otherDate,
        DateFormat.formatDate currentDate Date_fields toLocaleString date false =
        DateFormat.formatDate otherDate Date_fields toLocaleString date false).
Proof.
  split; [|split; [|split]].
  - intros HT includeRelative. unfold DateFormat.formatDate.
    assert (H1 : DateFormat.withTime date = date +:+ "T00:00:00").
    { unfold DateFormat.withTime. now rewrite HT. }
    assert (H2 : DateFormat.withTime (date +:+ "T00:00:00") = date +:+ "T00:00:00").
    { assert (H3 : DateFormat.includes "T" (date +:+ "T00:00:00") = true)
        by apply (includes_app_r "T" date "00:00:00").
      unfold DateFormat.withTime. now rewrite H3. }
    now rewrite H1, H2.
  - intros HT. unfold DateFormat.formatDate, DateFormat.withTime.
    now rewrite HT.
  - unfold DateFormat.withTime at 1. now rewrite includes_withTime.
  - intros otherDate. reflexivity.
Qed.

(** X20.  The relative part of [formatDate] is 'Today' or a count of at
    least 1 followed by 'y ago', 'mo ago' or 'd ago'; it is 'Today' for an
    invalid date.  The calendar fields are compared one by one: a date of
    an earlier year reads as that many years ago whatever its month and
    day are, and a date whose year and month are not earlier, but whose day
    of the month is, reads as days ago even when it is yet to come. *)
Theorem formattedDate_cases
  (currentDate : DateFormat.DateFields) (targetDate : option DateFormat.DateFields) :
  (DateFormat.formattedDate currentDate targetDate = "Today"%string \/
   exists (n : Z) (unit : string),
     (1 <= n)%Z
     /\ In unit ["y ago"; "mo ago"; "d ago"]%string
     /\ DateFormat.formattedDate currentDate targetDate =
          DateFormat.number (Some n) +:+ unit)
  /\ DateFormat.formattedDate currentDate None = "Today"%string
  /\ (forall t,
        (DateFormat.fullYear t < DateFormat.fullYear currentDate)%Z ->
        DateFormat.formattedDate currentDate (Some t) =
          DateFormat.number
            (Some (DateFormat.fullYear currentDate - DateFormat.fullYear t)%Z)
          +:+ "y ago")
  /\ (forall t,
        (DateFormat.fullYear currentDate <= DateFormat.fullYear t)%Z ->
        (DateFormat.month currentDate <= DateFormat.month t)%Z ->
        (DateFormat.date t < DateFormat.date currentDate)%Z ->
        DateFormat.formattedDate currentDate (Some t) =
          DateFormat.number
            (Some (DateFormat.date currentDate - DateFormat.date t)%Z)
          +:+ "d ago").
Proof.
  split; [|split; [reflexivity|split]].
  - destruct targetDate as [t|]; [|now left].
    unfold DateFormat.formattedDate, DateFormat.ago, DateFormat.positive.
    cbn [option_map].
    destruct (Z.ltb_spec 0 (DateFormat.fullYear currentDate - DateFormat.fullYear t)).
    { right. eexists _, _. split; [|split; [|reflexivity]]; [lia | simpl; auto]. }
    destruct (Z.ltb_spec 0 (DateFormat.month currentDate - DateFormat.month t)).
    { right. eexists _, _. split; [|split; [|reflexivity]]; [lia | simpl; auto]. }
    destruct (Z.ltb_spec 0 (DateFormat.date currentDate - DateFormat.date t)).
    { right. eexists _, _. split; [|split; [|reflexivity]]; [lia | simpl; auto]. }
    now left.
  - intros t Hy.
    unfold DateFormat.formattedDate, DateFormat.ago, DateFormat.positive.
    cbn [option_map].
    destruct (Z.ltb_spec 0 (DateFormat.fullYear currentDate - DateFormat.fullYear t));
      [reflexivity | lia].
  - intros t Hy Hm Hd.
    unfold DateFormat.formattedDate, DateFormat.ago, DateFormat.positive.
    cbn [option_map].
    destruct (Z.ltb_spec 0 (DateFormat.fullYear currentDate - DateFormat.fullYear t));
      [lia|].
    destruct (Z.ltb_spec 0 (DateFormat.month currentDate - DateFormat.month t));
      [lia|].
    destruct (Z.ltb_spec 0 (DateFormat.date currentDate - DateFormat.date t));
      [reflexivity | lia].
Qed.
